(** * go-netdicom: DIMSE command codec, PDV assembler and sample server

A shallow embedding of [dimse.go] (message types of DICOM PS3.7, the
group-0 command codec and the P-DATA-TF command assembler) and of the
C-MOVE / C-GET callback of [sampleserver/sampleserver.go].

Conventions of the embedding.
- Go's [(value, error)] results are pairs whose second component is an
  [option error]; [None] is the nil error.
- A Go panic ([log.Panicf], a failed [doassert], a nil pointer
  dereference) is the [Panic] outcome of the [Exec] monad.
- [uint16], [uint32] and [byte] values are [Z]; the only conversion the
  code performs ([uint32(len(bytes))]) has its wrap-around written out.
- Logging ([log.Printf], [vlog]) has no effect on results and is left
  out. *)

From Stdlib Require Import ZArith List Bool Lia.
From Stdlib.Strings Require Import String Byte Ascii.
Import ListNotations.
Open Scope Z_scope.
Open Scope list_scope.

(** ** Outcomes of Go calls *)

Module Go.

(** The reasons for which the modelled code panics. *)
Inductive panic :=
| UnknownDIMSECommand (commandField : Z)   (* log.Panicf("Unknown DIMSE command 0x%x") *)
| MixedContext (have got : Z)              (* log.Panicf("Mixed context: %d %d") *)
| AssertionFailed                          (* doassert(false) *)
| NilPointerDereference                    (* field access through a nil pointer *)
| PanicValue (what : string).              (* panic(v) *)

(** A call either returns normally or panics. *)
Inductive Exec (A : Type) :=
| Ret (a : A)
| Panic (p : panic).
Arguments Ret {A} a.
Arguments Panic {A} p.

Definition bind {A B} (c : Exec A) (k : A -> Exec B) : Exec B :=
  match c with
  | Ret a => k a
  | Panic p => Panic p
  end.

End Go.
Import Go.

Notation "x <- c ;; k" := (Go.bind c (fun x => k))
  (at level 61, c at next level, right associativity).
Notation "c ;;; k" := (Go.bind c (fun _ => k))
  (at level 61, right associativity).

(** ** The DICOM element library, as [dimse.go] uses it

[github.com/yasushi-saito/go-dicom] is an external collaborator: its
element encoder and decoder are not part of this repository.  The
embedding takes the operations [dimse.go] calls as an interface, so every
general theorem below holds for any element codec. *)

Module Dicom.

(** [dicom.Tag{Group, Element}], two [uint16]. *)
Record Tag := mkTag { Group : Z; Element : Z }.

Definition Tag_eqb (a b : Tag) : bool :=
  (Group a =? Group b) && (Element a =? Element b).

(** Go errors.  [ElementNotFound] is the error [findElementWithTag]
    builds; every other error comes from the library. *)
Inductive error :=
| ElementNotFound (tag : Tag)
| LibraryError (msg : string).

(** The [interface{}] values [dimse.go] hands to the element encoder. *)
Inductive ElementValue :=
| VString (s : string)
| VUInt16 (n : Z)
| VUInt32 (n : Z)
| VBytes (b : list byte).

Class Library := {
  DicomElement : Type;
  Encoder : Type;
  Decoder : Type;
  (* elem.Tag *)
  ElementTag : DicomElement -> Tag;
  (* dicom.GetString, dicom.GetUInt32, dicom.GetUInt16 *)
  GetString : DicomElement -> string * option error;
  GetUInt32 : DicomElement -> Z * option error;
  GetUInt16 : DicomElement -> Z * option error;
  (* dicom.NewEncoder(binary.LittleEndian) *)
  NewEncoder : Encoder;
  (* dicom.EncodeDataElement(e, tag, values) *)
  EncodeDataElement : Encoder -> Tag -> list ElementValue -> Encoder;
  (* e.EncodeBytes(bytes) *)
  EncodeBytes : Encoder -> list byte -> Encoder;
  (* e.Finish() *)
  EncoderFinish : Encoder -> list byte * option error;
  (* dicom.NewDecoder(io, limit, binary.LittleEndian, true) *)
  NewDecoder : list byte -> Z -> Decoder;
  (* d.Len(), d.Error(), dicom.ReadDataElement(d), d.Finish() *)
  DecoderLen : Decoder -> Z;
  DecoderError : Decoder -> option error;
  ReadDataElement : Decoder -> Decoder * DicomElement;
  DecoderFinish : Decoder -> option error
}.

(** What makes the read loop of [DecodeDIMSEMessage] stop: a read either
    consumes input or records an error. *)
Definition ReadProgress (L : Library) : Prop :=
  forall d : Decoder,
    0 < DecoderLen d -> DecoderError d = None ->
    DecoderLen (fst (ReadDataElement d)) < DecoderLen d
    \/ DecoderError (fst (ReadDataElement d)) <> None.

End Dicom.
Import Dicom.

Definition isNil {A} (e : option A) : bool :=
  match e with None => true | Some _ => false end.

(** ** dimse.go *)

Module Dimse.

Section WithLibrary.

Context {L : Library}.

(** Modelled from the spec: [doassert] is defined in another file of the
    package, which is not among the sources embedded here; the spec
    describes it as an assertion of the source that panics when its
    condition is false. *)
Definition doassert (x : bool) : Exec unit :=
  if x then Ret tt else Panic AssertionFailed.

(** [findElementWithTag]: the first element carrying [tag], or an error. *)
Fixpoint findElementWithTag (elems : list DicomElement) (tag : Tag)
  : DicomElement + error :=
  match elems with
  | [] => inr (ElementNotFound tag)
  | elem :: rest =>
      if Tag_eqb (ElementTag elem) tag then inl elem
      else findElementWithTag rest tag
  end.

Definition getStringFromElements (elems : list DicomElement) (tag : Tag)
  : string * option error :=
  match findElementWithTag elems tag with
  | inr err => (EmptyString, Some err)
  | inl e => GetString e
  end.

Definition getUInt32FromElements (elems : list DicomElement) (tag : Tag)
  : Z * option error :=
  match findElementWithTag elems tag with
  | inr err => (0, Some err)
  | inl e => GetUInt32 e
  end.

Definition getUInt16FromElements (elems : list DicomElement) (tag : Tag)
  : Z * option error :=
  match findElementWithTag elems tag with
  | inr err => (0, Some err)
  | inl e => GetUInt16 e
  end.

Definition encodeDataElementWithSingleValue (e : Encoder) (tag : Tag) (v : ElementValue)
  : Encoder :=
  EncodeDataElement e tag [v].

(** Standard DIMSE tags *)
Definition TagCommandGroupLength := mkTag 0 0.
Definition TagCommandField := mkTag 0 0x100.
Definition TagAffectedSOPClassUID := mkTag 0x0000 0x0002.
Definition TagMessageID := mkTag 0 0x0110.
Definition TagMessageIDBeingRespondedTo := mkTag 0 0x0120.
Definition TagPriority := mkTag 0 0x0700.
Definition TagCommandDataSetType := mkTag 0 0x0800.
Definition TagStatus := mkTag 0 0x0900.
Definition TagAffectedSOPInstanceUID := mkTag 0 0x1000.
Definition TagMoveOriginatorApplicationEntityTitle := mkTag 0 0x1030.
Definition TagMoveOriginatorMessageID := mkTag 0 0x1031.

Definition CommandDataSetTypeNull : Z := 0x101.

(** P3.7 9.3.1.1 *)
Record C_STORE_RQ := mkRQ {
  rqAffectedSOPClassUID : string;
  rqMessageID : Z;
  rqPriority : Z;
  rqCommandDataSetType : Z;
  rqAffectedSOPInstanceUID : string;
  rqMoveOriginatorApplicationEntityTitle : string;
  rqMoveOriginatorMessageID : Z
}.

(** P3.7 9.3.1.2 *)
Record C_STORE_RSP := mkRSP {
  rspAffectedSOPClassUID : string;
  rspMessageIDBeingRespondedTo : Z;
  rspCommandDataSetType : Z;
  rspAffectedSOPInstanceUID : string;
  rspStatus : Z
}.

(** A value of the interface type [DIMSEMessage].  Both implementations
    have pointer receivers, so an interface value is either the nil
    interface or a pointer of one of the two types; the pointer itself may
    be nil ([None]), and such an interface value is not [== nil] in Go. *)
Inductive DIMSEMessage :=
| NilMessage
| RQ (v : option C_STORE_RQ)
| RSP (v : option C_STORE_RSP).

(** [x == nil] on an interface value. *)
Definition isNilMessage (m : DIMSEMessage) : bool :=
  match m with NilMessage => true | _ => false end.

Definition C_STORE_RQ_HasData (v : C_STORE_RQ) : Exec bool :=
  doassert (negb (rqCommandDataSetType v =? CommandDataSetTypeNull)) ;;;
  Ret (negb (rqCommandDataSetType v =? CommandDataSetTypeNull)).

Definition C_STORE_RQ_Encode (v : C_STORE_RQ) (e : Encoder) : Encoder :=
  let e := encodeDataElementWithSingleValue e TagCommandField (VUInt16 1) in
  let e := encodeDataElementWithSingleValue e TagAffectedSOPClassUID
             (VString (rqAffectedSOPClassUID v)) in
  let e := encodeDataElementWithSingleValue e (mkTag 0 0x110) (VUInt16 (rqMessageID v)) in
  let e := encodeDataElementWithSingleValue e (mkTag 0 0x700) (VUInt16 (rqPriority v)) in
  let e := encodeDataElementWithSingleValue e (mkTag 0 0x800)
             (VUInt16 (rqCommandDataSetType v)) in
  let e := encodeDataElementWithSingleValue e TagAffectedSOPInstanceUID
             (VString (rqAffectedSOPInstanceUID v)) in
  let e := if negb (String.eqb (rqMoveOriginatorApplicationEntityTitle v) EmptyString)
           then encodeDataElementWithSingleValue e (mkTag 0 1030)
                  (VString (rqMoveOriginatorApplicationEntityTitle v))
           else e in
  if negb (rqMoveOriginatorMessageID v =? 0)
  then encodeDataElementWithSingleValue e (mkTag 0 1031)
         (VUInt16 (rqMoveOriginatorMessageID v))
  else e.

(** Go's [if err != nil { return nil, err }] after a two-valued call. *)
Notation "'try' x ':=' c 'in' k" :=
  (let '(x, err) := c in
   match err with
   | Some e => (None, Some e)
   | None => k
   end)
  (at level 10, x name, c at level 100, k at level 200, only parsing).

Definition decodeC_STORE_RQ (elems : list DicomElement)
  : option C_STORE_RQ * option error :=
  try sopClass := getStringFromElements elems TagAffectedSOPClassUID in
  try messageID := getUInt16FromElements elems TagMessageID in
  try priority := getUInt16FromElements elems TagPriority in
  try dataSetType := getUInt16FromElements elems TagCommandDataSetType in
  try sopInstance := getStringFromElements elems TagAffectedSOPInstanceUID in
  let moveAE := fst (getStringFromElements elems TagMoveOriginatorApplicationEntityTitle) in
  let moveID := fst (getUInt16FromElements elems TagMoveOriginatorMessageID) in
  (Some (mkRQ sopClass messageID priority dataSetType sopInstance moveAE moveID), None).

(** P3.7 C.  The struct starts as the zero value; the fields the decoder
    does not assign keep it. *)
Definition decodeC_STORE_RSP (elems : list DicomElement)
  : option C_STORE_RSP * option error :=
  try sopClass := getStringFromElements elems TagAffectedSOPClassUID in
  try messageID := getUInt16FromElements elems TagMessageIDBeingRespondedTo in
  try status := getUInt16FromElements elems TagStatus in
  try dataSetType := getUInt16FromElements elems TagCommandDataSetType in
  (Some (mkRSP sopClass messageID dataSetType EmptyString status), None).

Definition C_STORE_RSP_Encode (v : C_STORE_RSP) (e : Encoder) : Exec Encoder :=
  doassert (rspCommandDataSetType v =? 0x101) ;;;
  let e := encodeDataElementWithSingleValue e TagCommandField (VUInt16 0x8001) in
  let e := encodeDataElementWithSingleValue e TagAffectedSOPClassUID
             (VString (rspAffectedSOPClassUID v)) in
  let e := encodeDataElementWithSingleValue e TagMessageIDBeingRespondedTo
             (VUInt16 (rspMessageIDBeingRespondedTo v)) in
  let e := encodeDataElementWithSingleValue e TagCommandDataSetType
             (VUInt16 (rspCommandDataSetType v)) in
  let e := encodeDataElementWithSingleValue e TagAffectedSOPInstanceUID
             (VString (rspAffectedSOPInstanceUID v)) in
  Ret (encodeDataElementWithSingleValue e TagStatus (VUInt16 (rspStatus v))).

Definition C_STORE_RSP_HasData (v : C_STORE_RSP) : Exec bool :=
  doassert (rspCommandDataSetType v =? CommandDataSetTypeNull) ;;;
  Ret (negb (rspCommandDataSetType v =? CommandDataSetTypeNull)).

(** Method calls through the interface.  A method reads the fields of its
    receiver, so a nil receiver panics. *)
Definition HasData (m : DIMSEMessage) : Exec bool :=
  match m with
  | RQ (Some v) => C_STORE_RQ_HasData v
  | RSP (Some v) => C_STORE_RSP_HasData v
  | _ => Panic NilPointerDereference
  end.

Definition Encode (m : DIMSEMessage) (e : Encoder) : Exec Encoder :=
  match m with
  | RQ (Some v) => Ret (C_STORE_RQ_Encode v e)
  | RSP (Some v) => C_STORE_RSP_Encode v e
  | _ => Panic NilPointerDereference
  end.

(** The loop [for d.Len() > 0 && d.Error() == nil] of
    [DecodeDIMSEMessage].  [fuel] bounds the number of iterations;
    [readAllElements] passes enough of it (lemma [readAllElements_exits]). *)
Definition loopCondition (d : Decoder) : bool :=
  (0 <? DecoderLen d) && isNil (DecoderError d).

Fixpoint readElements (fuel : nat) (d : Decoder) (elems : list DicomElement)
  : Decoder * list DicomElement :=
  match fuel with
  | O => (d, elems)
  | S fuel' =>
      if loopCondition d then
        let '(d', elem) := ReadDataElement d in
        readElements fuel' d' (elems ++ [elem])
      else (d, elems)
  end.

(** The loop run from a fresh [elems]: one iteration per remaining byte is
    more than it can use, and one more lets it test its condition. *)
Definition readAllElements (d : Decoder) : Decoder * list DicomElement :=
  readElements (S (Z.to_nat (DecoderLen d))) d [].

Definition DecodeDIMSEMessage (io : list byte) (limit : Z)
  : Exec (DIMSEMessage * option error) :=
  let '(d, elems) := readAllElements (NewDecoder io limit) in
  match DecoderFinish d with
  | Some err => Ret (NilMessage, Some err)
  | None =>
      let '(commandField, err) := getUInt16FromElements elems TagCommandField in
      match err with
      | Some err => Ret (NilMessage, Some err)
      | None =>
          if commandField =? 1 then
            let '(v, err) := decodeC_STORE_RQ elems in Ret (RQ v, err)
          else if commandField =? 0x8001 then
            let '(v, err) := decodeC_STORE_RSP elems in Ret (RSP v, err)
          else Panic (UnknownDIMSECommand commandField)
      end
  end.

Definition encodeDIMSEMessage (v : DIMSEMessage)
  : Exec (list byte * option error) :=
  subEncoder <- Encode v NewEncoder ;;
  let '(bytes, err) := EncoderFinish subEncoder in
  match err with
  | Some err => Ret ([], Some err)
  | None =>
      let e := encodeDataElementWithSingleValue NewEncoder TagCommandGroupLength
                 (VUInt32 (Z.of_nat (List.length bytes) mod 2 ^ 32)) in
      let e := EncodeBytes e bytes in
      Ret (EncoderFinish e)
  end.

(** Encoding a message and decoding the bytes again, the limit being their
    number as in [addPDataTF]. *)
Definition roundTrip (v : DIMSEMessage) : Exec (DIMSEMessage * option error) :=
  r <- encodeDIMSEMessage v ;;
  let '(bytes, err) := r in
  match err with
  | Some err => Ret (NilMessage, Some err)
  | None => DecodeDIMSEMessage bytes (Z.of_nat (List.length bytes))
  end.

(** Modelled from the spec: the P-DATA-TF PDU and its presentation data
    value items are declared in another file of the package, which is not
    among the sources embedded here.  A PDV is (contextID, command-vs-data
    bit, last-fragment bit, value bytes); [addPDataTF] reads the four as
    [item.ContextID], [item.Command], [item.Last] and [item.Value]. *)
Record PresentationDataValueItem := mkPDV {
  ContextID : Z;
  Command : bool;
  Last : bool;
  Value : list byte
}.

Record P_DATA_TF := mkPDataTF { Items : list PresentationDataValueItem }.

Record dimseCommandAssembler := mkAssembler {
  contextID : Z;
  commandBytes : list byte;
  command : DIMSEMessage;
  dataBytes : list byte;
  readAllCommand : bool;
  readAllData : bool
}.

(** [dimseCommandAssembler{}], the zero value. *)
Definition emptyAssembler : dimseCommandAssembler :=
  mkAssembler 0 [] NilMessage [] false false.

(** One iteration of [for _, item := range pdu.Items]. *)
Definition addItem (a : dimseCommandAssembler) (item : PresentationDataValueItem)
  : Exec dimseCommandAssembler :=
  a <- (if contextID a =? 0 then
          Ret (mkAssembler (ContextID item) (commandBytes a) (command a)
                 (dataBytes a) (readAllCommand a) (readAllData a))
        else if negb (contextID a =? ContextID item) then
          Panic (MixedContext (contextID a) (ContextID item))
        else Ret a) ;;
  if Command item then
    let a := mkAssembler (contextID a) (commandBytes a ++ Value item) (command a)
               (dataBytes a) (readAllCommand a) (readAllData a) in
    if Last item then
      doassert (negb (readAllCommand a)) ;;;
      Ret (mkAssembler (contextID a) (commandBytes a) (command a)
             (dataBytes a) true (readAllData a))
    else Ret a
  else
    let a := mkAssembler (contextID a) (commandBytes a) (command a)
               (dataBytes a ++ Value item) (readAllCommand a) (readAllData a) in
    if Last item then
      doassert (negb (readAllData a)) ;;;
      Ret (mkAssembler (contextID a) (commandBytes a) (command a)
             (dataBytes a) (readAllCommand a) true)
    else Ret a.

Fixpoint addItems (a : dimseCommandAssembler) (items : list PresentationDataValueItem)
  : Exec dimseCommandAssembler :=
  match items with
  | [] => Ret a
  | item :: rest => a' <- addItem a item ;; addItems a' rest
  end.

(** What [addPDataTF] returns: [(string, DIMSEMessage, []byte, error)]. *)
Record Assembled := mkAssembled {
  syntaxName : string;
  asCommand : DIMSEMessage;
  asDataBytes : list byte;
  asErr : option error
}.

(** [return "", nil, nil, err] *)
Definition nothing (err : option error) : Assembled :=
  mkAssembled EmptyString NilMessage [] err.

(** The assignment [a.command = cmd]. *)
Definition withCommand (a : dimseCommandAssembler) (cmd : DIMSEMessage)
  : dimseCommandAssembler :=
  mkAssembler (contextID a) (commandBytes a) cmd
    (dataBytes a) (readAllCommand a) (readAllData a).

(** The value bytes of the command PDVs, and of the data PDVs, of a run of
    P-DATA-TF PDUs, in arrival order. *)
Definition commandPayload (pdus : list P_DATA_TF) : list byte :=
  flat_map (fun pdu =>
    flat_map (fun item => if Command item then Value item else []) (Items pdu)) pdus.

Definition dataPayload (pdus : list P_DATA_TF) : list byte :=
  flat_map (fun pdu =>
    flat_map (fun item => if Command item then [] else Value item) (Items pdu)) pdus.

(** The block [if a.command == nil { a.command, err = DecodeDIMSEMessage(...) }]
    of [addPDataTF]: the assembler after it and the error it leaves in
    [err].  Both results of the call are assigned, also when it fails. *)
Definition ensureDecoded (a : dimseCommandAssembler)
  : Exec (dimseCommandAssembler * option error) :=
  if isNilMessage (command a) then
    r <- DecodeDIMSEMessage (commandBytes a)
           (Z.of_nat (List.length (commandBytes a))) ;;
    let '(cmd, err) := r in
    Ret (withCommand a cmd, err)
  else Ret (a, None).

Section Assembler.

(** The context map is declared in another file of the package, which is
    not among the sources embedded here; the assembler only passes it to
    [contextIDToAbstractSyntaxName], whose error it logs and drops. *)
Variable contextIDMap : Type.
Variable contextIDToAbstractSyntaxName : contextIDMap -> Z -> string * option error.

(** [addPDataTF] mutates [*a]; the embedding returns the assembler as the
    call leaves it together with the four results. *)
Definition addPDataTF (a : dimseCommandAssembler) (pdu : P_DATA_TF) (m : contextIDMap)
  : Exec (dimseCommandAssembler * Assembled) :=
  a <- addItems a (Items pdu) ;;
  if negb (readAllCommand a) then Ret (a, nothing None)
  else
    r <- ensureDecoded a ;;
    let '(a, err) := r in
    match err with
    | Some err => Ret (a, nothing (Some err))
    | None =>
        hasData <- HasData (command a) ;;
        if hasData && negb (readAllData a) then Ret (a, nothing None)
        else
          let '(name, _) := contextIDToAbstractSyntaxName m (contextID a) in
          Ret (emptyAssembler, mkAssembled name (command a) (dataBytes a) None)
    end.

(** A run of calls none of which hands a message up: the assembler they
    leave behind, or [None] if one of them panics or emits. *)
Fixpoint feed (a : dimseCommandAssembler) (pdus : list P_DATA_TF) (m : contextIDMap)
  : option dimseCommandAssembler :=
  match pdus with
  | [] => Some a
  | pdu :: rest =>
      match addPDataTF a pdu m with
      | Ret (a', r) => if isNilMessage (asCommand r) then feed a' rest m else None
      | Panic _ => None
      end
  end.

(** Call number [k] of a run is the one that decoded [cmd]: the calls
    before it left no command in the assembler, and the command bytes of
    the calls up to it decode to [cmd] with [err]. *)
Definition decodedIn (pdus : list P_DATA_TF) (m : contextIDMap) (k : nat)
    (cmd : DIMSEMessage) (err : option error) : Prop :=
  exists before,
    feed emptyAssembler (firstn k pdus) m = Some before
    /\ command before = NilMessage
    /\ DecodeDIMSEMessage (commandPayload (firstn (S k) pdus))
         (Z.of_nat (List.length (commandPayload (firstn (S k) pdus))))
       = Ret (cmd, err).

(** What the assembler holds after a run of calls from the empty state. *)
Definition gathered (pdus : list P_DATA_TF) (m : contextIDMap)
    (a : dimseCommandAssembler) : Prop :=
  feed emptyAssembler pdus m = Some a
  /\ commandBytes a = commandPayload pdus
  /\ dataBytes a = dataPayload pdus
  /\ (command a = NilMessage
      \/ exists k err, (k < List.length pdus)%nat /\ decodedIn pdus m k (command a) err).

End Assembler.

(** The elements [decodeC_STORE_RQ] and [decodeC_STORE_RSP] return an error
    for when they are missing, in the order the decoders look them up. *)
Definition requiredOfC_STORE_RQ : list Tag :=
  [TagAffectedSOPClassUID; TagMessageID; TagPriority; TagCommandDataSetType;
   TagAffectedSOPInstanceUID].

Definition requiredOfC_STORE_RSP : list Tag :=
  [TagAffectedSOPClassUID; TagMessageIDBeingRespondedTo; TagStatus;
   TagCommandDataSetType].

(** The two elements [decodeC_STORE_RQ] reads without looking at the error. *)
Definition isMoveOriginatorTag (t : Tag) : bool :=
  Tag_eqb t TagMoveOriginatorApplicationEntityTitle
  || Tag_eqb t TagMoveOriginatorMessageID.

(** A request with the two move originator fields at their zero values. *)
Definition withoutMoveOriginator (v : C_STORE_RQ) : C_STORE_RQ :=
  mkRQ (rqAffectedSOPClassUID v) (rqMessageID v) (rqPriority v)
    (rqCommandDataSetType v) (rqAffectedSOPInstanceUID v) EmptyString 0.

(** The number of PDVs of a run that carry the last-fragment bit, among the
    command PDVs ([isCommand = true]) or among the data PDVs. *)
Definition isLastOf (isCommand : bool) (item : PresentationDataValueItem) : bool :=
  Bool.eqb (Command item) isCommand && Last item.

Definition countLast (isCommand : bool) (pdus : list P_DATA_TF) : nat :=
  List.length (filter (isLastOf isCommand) (flat_map Items pdus)).

End WithLibrary.

Arguments addPDataTF {L contextIDMap} contextIDToAbstractSyntaxName a pdu m.
Arguments feed {L contextIDMap} contextIDToAbstractSyntaxName a pdus m.
Arguments decodedIn {L contextIDMap} contextIDToAbstractSyntaxName pdus m k cmd err.
Arguments gathered {L contextIDMap} contextIDToAbstractSyntaxName pdus m a.

End Dimse.

(** ** A reference element codec

An instance of the library interface that follows DICOM PS3.5 implicit VR
little endian for the group-0 tags: tag group and element as two 16-bit
words, a 32-bit value length, then the value, whose representation is
looked up from the tag.  It runs the code above on concrete byte
streams. *)

Module ImplicitLE.

Record Elem := mkElem { elTag : Tag; elValues : list ElementValue }.
Record EncoderState := mkEncoder { ebuf : list byte; eerr : option error }.
Record DecoderState := mkDecoder { rest : list byte; derr : option error }.

Definition byteOfZ (n : Z) : byte :=
  match Byte.of_N (Z.to_N (n mod 256)) with
  | Some b => b
  | None => x00
  end.

Definition zOfByte (b : byte) : Z := Z.of_N (Byte.to_N b).

Definition le16 (n : Z) : list byte := [byteOfZ n; byteOfZ (n / 256)].
Definition le32 (n : Z) : list byte := le16 n ++ le16 (n / 65536).

Definition readLE (bs : list byte) : Z :=
  fold_right (fun b acc => zOfByte b + 256 * acc) 0 bs.

Inductive VR := UL | US | UI | AE | UN.

(** The command dictionary of PS3.7 Annex E, restricted to the elements of
    C-STORE. *)
Definition vrOf (t : Tag) : VR :=
  if negb (Group t =? 0) then UN
  else if Element t =? 0x0000 then UL
  else if Element t =? 0x0002 then UI
  else if Element t =? 0x0100 then US
  else if Element t =? 0x0110 then US
  else if Element t =? 0x0120 then US
  else if Element t =? 0x0700 then US
  else if Element t =? 0x0800 then US
  else if Element t =? 0x0900 then US
  else if Element t =? 0x1000 then UI
  else if Element t =? 0x1030 then AE
  else if Element t =? 0x1031 then US
  else UN.

Definition padEven (bs : list byte) (pad : byte) : list byte :=
  if Nat.even (List.length bs) then bs else bs ++ [pad].

Definition encodeValue (v : ElementValue) : list byte :=
  match v with
  | VString s => padEven (list_byte_of_string s) x00
  | VUInt16 n => le16 n
  | VUInt32 n => le32 n
  | VBytes b => b
  end.

Definition isPadding (b : byte) : bool :=
  match b with x00 | x20 => true | _ => false end.

Fixpoint dropPadding (bs : list byte) : list byte :=
  match bs with
  | b :: tl => if isPadding b then dropPadding tl else bs
  | [] => []
  end.

Definition trimRight (bs : list byte) : list byte := rev (dropPadding (rev bs)).

Fixpoint words16 (bs : list byte) : list ElementValue :=
  match bs with
  | a :: b :: tl => VUInt16 (readLE [a; b]) :: words16 tl
  | _ => []
  end.

Fixpoint words32 (bs : list byte) : list ElementValue :=
  match bs with
  | a :: b :: c :: d :: tl => VUInt32 (readLE [a; b; c; d]) :: words32 tl
  | _ => []
  end.

Definition decodeValues (vr : VR) (bs : list byte) : list ElementValue :=
  match vr with
  | UL => words32 bs
  | US => words16 bs
  | UI | AE => [VString (string_of_list_byte (trimRight bs))]
  | UN => [VBytes bs]
  end.

Definition encodeElement (e : EncoderState) (t : Tag) (values : list ElementValue)
  : EncoderState :=
  match eerr e with
  | Some _ => e
  | None =>
      let body := flat_map encodeValue values in
      mkEncoder (ebuf e ++ le16 (Group t) ++ le16 (Element t)
                   ++ le32 (Z.of_nat (List.length body)) ++ body) None
  end.

Definition readElement (d : DecoderState) : DecoderState * Elem :=
  match rest d with
  | g0 :: g1 :: e0 :: e1 :: l0 :: l1 :: l2 :: l3 :: tl =>
      let t := mkTag (readLE [g0; g1]) (readLE [e0; e1]) in
      let vl := Z.to_nat (readLE [l0; l1; l2; l3]) in
      if (vl <=? List.length tl)%nat then
        (mkDecoder (skipn vl tl) (derr d), mkElem t (decodeValues (vrOf t) (firstn vl tl)))
      else
        (mkDecoder [] (Some (LibraryError "value runs past the end of the input")),
         mkElem t [])
  | _ =>
      (mkDecoder [] (Some (LibraryError "truncated element header")),
       mkElem (mkTag 0 0) [])
  end.

Definition getString (e : Elem) : string * option error :=
  match elValues e with
  | [VString s] => (s, None)
  | _ => (EmptyString, Some (LibraryError "no single string value"))
  end.

Definition getUInt16 (e : Elem) : Z * option error :=
  match elValues e with
  | [VUInt16 n] => (n, None)
  | _ => (0, Some (LibraryError "no single uint16 value"))
  end.

Definition getUInt32 (e : Elem) : Z * option error :=
  match elValues e with
  | [VUInt32 n] => (n, None)
  | _ => (0, Some (LibraryError "no single uint32 value"))
  end.

#[export] Instance codec : Library := {|
  DicomElement := Elem;
  Encoder := EncoderState;
  Decoder := DecoderState;
  ElementTag := elTag;
  GetString := getString;
  GetUInt32 := getUInt32;
  GetUInt16 := getUInt16;
  NewEncoder := mkEncoder [] None;
  EncodeDataElement := encodeElement;
  EncodeBytes := fun e bs =>
    match eerr e with
    | Some _ => e
    | None => mkEncoder (ebuf e ++ bs) None
    end;
  EncoderFinish := fun e => (ebuf e, eerr e);
  NewDecoder := fun io limit => mkDecoder (firstn (Z.to_nat limit) io) None;
  DecoderLen := fun d => Z.of_nat (List.length (rest d));
  DecoderError := derr;
  ReadDataElement := readElement;
  DecoderFinish := derr
|}.

End ImplicitLE.

(** ** sampleserver/sampleserver.go: the C-MOVE / C-GET callback *)

Module SampleServer.

Section Server.

(** [dicom.Element], [dicom.DataSet] and the three library calls of the
    callback.  [ReadDataSetFromFile] reads the file system; the embedding
    takes the file system as it stands during the call. *)
Variables Element DataSet : Type.
Variable ElementTag : Element -> Tag.
Variable Query : DataSet -> Element -> bool * option Element * option error.
Variable NewElement : Tag -> Element + error.
Variable ReadDataSetFromFile : string -> option DataSet * option error.

(** [ss.datasets] is a Go map; [range] visits it in an order the language
    leaves open, so the embedding keeps the entries as the list the
    iteration visits.  The mutex is left out: one call runs at a time. *)
Record server := mkServer {
  datasets : list (string * DataSet);
  pathSeq : Z
}.

(** Represents a match. *)
Record filterMatch := mkMatch {
  path : string;
  elems : list Element
}.

(** [netdicom.CMoveResult]: {Remaining, Path, DataSet, Err}. *)
Record CMoveResult := mkResult {
  Remaining : Z;
  Path : string;
  ResultDataSet : option DataSet;
  Err : option error
}.

Inductive filterOutcome :=
| AllMatched (elems : list Element)
| Missed
| Failed (err : error).

(** The inner loop of [findMatchingFiles] over the filters of one data set. *)
Fixpoint matchFilters (ds : DataSet) (filters : list Element) (acc : list Element)
  : filterOutcome :=
  match filters with
  | [] => AllMatched acc
  | filter :: rest =>
      let '(ok, elem, err) := Query ds filter in
      match err with
      | Some err => Failed err
      | None =>
          if negb ok then Missed
          else
            match elem with
            | Some elem => matchFilters ds rest (acc ++ [elem])
            | None =>
                match NewElement (ElementTag filter) with
                | inr err => Failed err
                | inl elem => matchFilters ds rest (acc ++ [elem])
                end
            end
      end
  end.

Fixpoint findMatchingLoop (entries : list (string * DataSet)) (filters : list Element)
    (matches : list filterMatch) : Exec (list filterMatch * option error) :=
  match entries with
  | [] => Ret (matches, None)
  | (path, ds) :: rest =>
      match matchFilters ds filters [] with
      | Failed err => Ret (matches, Some err)
      | Missed => findMatchingLoop rest filters matches
      | AllMatched elems =>
          if (List.length elems =? 0)%nat then Panic (PanicValue path)
          else findMatchingLoop rest filters (matches ++ [mkMatch path elems])
      end
  end.

Definition findMatchingFiles (ss : server) (filters : list Element)
  : Exec (list filterMatch * option error) :=
  findMatchingLoop (datasets ss) filters [].

(** [for i, match := range matches] of the goroutine: the responses it
    sends, [n] being [len(matches)] and [i] the index of the head. *)
Fixpoint moveResponses (n i : Z) (matches : list filterMatch) : list CMoveResult :=
  match matches with
  | [] => []
  | m :: rest =>
      let '(ds, err) := ReadDataSetFromFile (path m) in
      let resp :=
        match err with
        | Some err => mkResult (n - i - 1) (path m) None (Some err)
        | None => mkResult (n - i - 1) (path m) ds None
        end in
      resp :: moveResponses n (i + 1) rest
  end.

(** [onCMoveOrCGet] returns a channel that a goroutine fills and closes.
    The channel is first-in first-out and has one sender, so what a
    receiver gets from it is the list of values sent before the close. *)
Definition onCMoveOrCGet (ss : server) (transferSyntaxUID sopClassUID : string)
    (filters : list Element) : Exec (list CMoveResult) :=
  r <- findMatchingFiles ss filters ;;
  let '(matches, err) := r in
  match err with
  | Some err => Ret [mkResult 0 EmptyString None (Some err)]
  | None => Ret (moveResponses (Z.of_nat (List.length matches)) 0 matches)
  end.

(** [netdicom.CFindResult]: the elements of a match, or an error. *)
Record CFindResult := mkFindResult {
  FindElements : list Element;
  FindErr : option error
}.

(** [onCFind], as [onCMoveOrCGet]: the values its goroutine sends on the
    channel before closing it. *)
Definition onCFind (ss : server) (transferSyntaxUID sopClassUID : string)
    (filters : list Element) : Exec (list CFindResult) :=
  r <- findMatchingFiles ss filters ;;
  let '(matches, err) := r in
  match err with
  | Some err => Ret [mkFindResult [] (Some err)]
  | None => Ret (map (fun m => mkFindResult (elems m) None) matches)
  end.

End Server.

Arguments mkFindResult {Element} FindElements FindErr.
Arguments FindElements {Element} c.
Arguments FindErr {Element} c.
Arguments onCFind {Element DataSet} ElementTag Query NewElement
  ss transferSyntaxUID sopClassUID filters.
Arguments matchFilters {Element DataSet} ElementTag Query NewElement ds filters acc.
Arguments mkServer {DataSet} datasets pathSeq.
Arguments datasets {DataSet} s.
Arguments mkMatch {Element} path elems.
Arguments path {Element} f.
Arguments elems {Element} f.
Arguments mkResult {DataSet} Remaining Path ResultDataSet Err.
Arguments Remaining {DataSet} c.
Arguments Path {DataSet} c.
Arguments ResultDataSet {DataSet} c.
Arguments Err {DataSet} c.
Arguments findMatchingFiles {Element DataSet} ElementTag Query NewElement ss filters.
Arguments moveResponses {Element DataSet} ReadDataSetFromFile n i matches.
Arguments onCMoveOrCGet {Element DataSet} ElementTag Query NewElement ReadDataSetFromFile
  ss transferSyntaxUID sopClassUID filters.

(** *** The flags of [main] *)

Definition comma : ascii := ","%char.
Definition colon : ascii := ":"%char.
Definition newline : ascii := Ascii.ascii_of_nat 10.

(** [strings.Split(s, ",")]: the pieces between the commas, one more than
    there are commas; the empty string gives one empty piece. *)
Fixpoint splitComma (s : string) : list string :=
  match s with
  | EmptyString => [EmptyString]
  | String c rest =>
      if Ascii.eqb c comma then EmptyString :: splitComma rest
      else
        match splitComma rest with
        | piece :: pieces => String c piece :: pieces
        | [] => [String c EmptyString]
        end
  end.

(** The part of a string before its first colon and the part after it. *)
Fixpoint breakColon (s : string) : option (string * string) :=
  match s with
  | EmptyString => None
  | String c rest =>
      if Ascii.eqb c colon then Some (EmptyString, rest)
      else
        match breakColon rest with
        | Some (before, after) => Some (String c before, after)
        | None => None
        end
  end.

Fixpoint contains (c : ascii) (s : string) : bool :=
  match s with
  | EmptyString => false
  | String c' rest => Ascii.eqb c' c || contains c rest
  end.

(** [re.FindStringSubmatch(str)] for the expression [^([^:]+):(.+)$], its
    two groups.  The first group cannot hold a colon and must be followed by
    one, so it is what stands before the first colon, and must not be empty;
    the second is the rest, which must not be empty, and since [.] does not
    match a line feed it must not hold one. *)
Definition findAESubmatch (str : string) : option (string * string) :=
  match breakColon str with
  | Some (ae, hostPort) =>
      if String.eqb ae EmptyString || String.eqb hostPort EmptyString
         || contains newline hostPort
      then None
      else Some (ae, hostPort)
  | None => None
  end.

(** The map [aeMap], from AE titles to addresses. *)
Definition aeMap := string -> option string.

Definition emptyMap : aeMap := fun _ => None.

(** [aeMap[k] = v] *)
Definition setAE (m : aeMap) (k v : string) : aeMap :=
  fun k' => if String.eqb k' k then Some v else m k'.

(** [fmt.Errorf("Failed to parse AE spec '%v'", str)] *)
Inductive flagError := FailedToParseAESpec (str : string).

(** The loop of [parseRemoteAEFlag] over the pieces of the flag. *)
Fixpoint parseAESpecs (pieces : list string) (m : aeMap) : aeMap * option flagError :=
  match pieces with
  | [] => (m, None)
  | str :: rest =>
      if String.eqb str EmptyString then parseAESpecs rest m
      else
        match findAESubmatch str with
        | None => (m, Some (FailedToParseAESpec str))
        | Some (ae, hostPort) => parseAESpecs rest (setAE m ae hostPort)
        end
  end.

Definition parseRemoteAEFlag (flag : string) : aeMap * option flagError :=
  parseAESpecs (splitComma flag) emptyMap.

Definition canonicalizeHostPort (addr : string) : string :=
  if negb (contains colon addr) then String colon addr else addr.

End SampleServer.

(** ** Concrete inputs *)

Module Samples.

Import Dimse ImplicitLE.
Open Scope string_scope.

Definition storageClass : string := "1.2.840.10008.5.1.4.1.1.7".

(** A C-STORE-RSP as a provider sends it. *)
Definition rsp : C_STORE_RSP := mkRSP storageClass 7 0x101 "1.2.3.4" 0.

(** A C-STORE-RQ issued on behalf of a C-MOVE. *)
Definition rqMove : C_STORE_RQ := mkRQ storageClass 7 0 1 "1.2.3.4" "AE1" 9.

(** A C-STORE-RQ that announces no data set. *)
Definition rqNull : C_STORE_RQ := mkRQ storageClass 7 0 0x101 "1.2.3.4" "" 0.

(** A group-0 element stream, one single-valued element per entry. *)
Definition stream (elems : list (Tag * ElementValue)) : list byte :=
  ebuf (fold_left (fun e tv => encodeElement e (fst tv) [snd tv]) elems
          (mkEncoder [] None)).

Definition size (bs : list byte) : Z := Z.of_nat (List.length bs).

(** The command of a C-FIND-RQ (CommandField 0x0020). *)
Definition findRQ : list byte :=
  stream [(TagCommandField, VUInt16 0x20);
          (TagAffectedSOPClassUID, VString "1.2.840.10008.5.1.4.1.2.1.1");
          (TagMessageID, VUInt16 7);
          (TagPriority, VUInt16 0);
          (TagCommandDataSetType, VUInt16 1)].

(** A C-STORE-RSP command without (0000,1000) AffectedSOPInstanceUID. *)
Definition rspWithoutInstance : list byte :=
  stream [(TagCommandField, VUInt16 0x8001);
          (TagAffectedSOPClassUID, VString storageClass);
          (TagMessageIDBeingRespondedTo, VUInt16 7);
          (TagCommandDataSetType, VUInt16 0x101);
          (TagStatus, VUInt16 0)].

(** The command of a C-ECHO-RQ (CommandField 0x0030). *)
Definition echoRQ : list byte :=
  stream [(TagAffectedSOPClassUID, VString "1.2.840.10008.1.1");
          (TagCommandField, VUInt16 0x30);
          (TagMessageID, VUInt16 1);
          (TagCommandDataSetType, VUInt16 0x101)].

(** [rqMove] and [rsp] as the decoder gives them back. *)
Definition rqMoveDecoded : C_STORE_RQ := mkRQ storageClass 7 0 1 "1.2.3.4" "" 0.
Definition rspDecoded : C_STORE_RSP := mkRSP storageClass 7 0x101 "" 0.

(** A command that consists of (0000,0100) CommandField = 1 alone. *)
Definition commandFieldOnly : list byte := stream [(TagCommandField, VUInt16 1)].

(** The bytes [encodeDIMSEMessage] produces, empty if it fails. *)
Definition encoded (m : DIMSEMessage) : list byte :=
  match encodeDIMSEMessage m with
  | Ret (bs, None) => bs
  | _ => []
  end.

(** A context map that knows one presentation context. *)
Definition contextNames (m : unit) (id : Z) : string * option error :=
  if (id =? 1)%Z then (storageClass, None)
  else (EmptyString, Some (LibraryError "unknown context")).

Definition commandPDV (id : Z) (last : bool) (bs : list byte) := mkPDV id true last bs.
Definition dataPDV (id : Z) (last : bool) (bs : list byte) := mkPDV id false last bs.

(** An assembler in the middle of a message on context 1. *)
Definition midMessage : dimseCommandAssembler :=
  mkAssembler 1 [x00; x00] NilMessage [] false false.

(** A PDV of another presentation context. *)
Definition pduOtherContext : P_DATA_TF := mkPDataTF [commandPDV 3 false [x00]].

(** Whole commands in one PDV carrying the last-fragment bit. *)
Definition pduRSP : P_DATA_TF :=
  mkPDataTF [commandPDV 1 true (encoded (RSP (Some rsp)))].
Definition pduRQNull : P_DATA_TF :=
  mkPDataTF [commandPDV 1 true (encoded (RQ (Some rqNull)))].
Definition pduRQ : P_DATA_TF :=
  mkPDataTF [commandPDV 1 true (encoded (RQ (Some rqMoveDecoded)))].

(** A data fragment that arrives ahead of a response command. *)
Definition pduDataThenRSP : P_DATA_TF :=
  mkPDataTF [dataPDV 1 false [x01; x02]; commandPDV 1 true (encoded (RSP (Some rsp)))].

(** A stray command fragment, then the last data fragment. *)
Definition pduStrayThenData : P_DATA_TF :=
  mkPDataTF [commandPDV 1 false [x00]; dataPDV 1 true [x01; x02]].

(** The last data fragment alone. *)
Definition pduData : P_DATA_TF := mkPDataTF [dataPDV 1 true [x01; x02]].

(** A command cut down to its CommandField, and a PDU without PDVs. *)
Definition pduCommandFieldOnly : P_DATA_TF :=
  mkPDataTF [commandPDV 1 true commandFieldOnly].
Definition pduEmpty : P_DATA_TF := mkPDataTF [].

(** After the failed decode of [pduCommandFieldOnly]. *)
Definition afterFailedDecode : dimseCommandAssembler :=
  mkAssembler 1 commandFieldOnly (RQ None) [] true false.

(** *** A store of three files for the sample server

An element is its tag and a data set the tags it holds; a filter
matches the data sets that hold its tag. *)
Definition query (ds : list Tag) (filter : Tag) : bool * option Tag * option error :=
  (existsb (Tag_eqb filter) ds, Some filter, None).

Definition newElement (t : Tag) : Tag + error := inl t.

Definition readFile (path : string) : option (list Tag) * option error :=
  (Some [mkTag 0x0010 0x0010; mkTag 0x7FE0 0x0010], None).

Definition patientName : Tag := mkTag 0x0010 0x0010.

Definition store : SampleServer.server (list Tag) :=
  SampleServer.mkServer
    [("a.dcm", [patientName]); ("b.dcm", []); ("c.dcm", [patientName])] 0.

Definition storeMatches : list (SampleServer.filterMatch Tag) :=
  [SampleServer.mkMatch "a.dcm" [patientName];
   SampleServer.mkMatch "c.dcm" [patientName]].

End Samples.

(** * Properties *)

Import Dimse.

(** ** Tags and element lookup *)

Lemma Tag_eqb_eq (a b : Tag) : Tag_eqb a b = true <-> a = b.
Proof.
  destruct a as [g e], b as [g' e']. unfold Tag_eqb. cbn.
  rewrite andb_true_iff, !Z.eqb_eq. split.
  - intros [-> ->]. reflexivity.
  - intros H. injection H. auto.
Qed.

Lemma Tag_eqb_refl (a : Tag) : Tag_eqb a a = true.
Proof. apply Tag_eqb_eq. reflexivity. Qed.

Section ElementFacts.

Context {L : Library}.

(** A found element carries the tag asked for and is in the list. *)
Lemma findElementWithTag_found elems tag e :
  findElementWithTag elems tag = inl e -> In e elems /\ ElementTag e = tag.
Proof.
  induction elems as [|x rest IH]; cbn; [discriminate|].
  destruct (Tag_eqb (ElementTag x) tag) eqn:E.
  - intros [= <-]. apply Tag_eqb_eq in E. auto.
  - intros H. destruct (IH H). auto.
Qed.

(** The lookup fails exactly by reporting the missing tag. *)
Lemma findElementWithTag_missing elems tag err :
  findElementWithTag elems tag = inr err -> err = ElementNotFound tag.
Proof.
  induction elems as [|x rest IH]; cbn.
  - intros [= <-]. reflexivity.
  - destruct (Tag_eqb (ElementTag x) tag); [discriminate | exact IH].
Qed.

(** Elements with another tag do not matter to a lookup. *)
Lemma findElementWithTag_without elems tag other :
  Tag_eqb other tag = false ->
  findElementWithTag
    (filter (fun e => negb (Tag_eqb (ElementTag e) other)) elems) tag
  = findElementWithTag elems tag.
Proof.
  intros Hne. induction elems as [|x rest IH]; cbn; [reflexivity|].
  destruct (Tag_eqb (ElementTag x) other) eqn:E; cbn.
  - apply Tag_eqb_eq in E. rewrite E, Hne. exact IH.
  - destruct (Tag_eqb (ElementTag x) tag); [reflexivity | exact IH].
Qed.

(** *** The read loop *)

Lemma readElements_exits_aux (P : ReadProgress L) fuel :
  forall d elems,
    DecoderLen d < Z.of_nat fuel \/ loopCondition d = false ->
    loopCondition (fst (readElements fuel d elems)) = false.
Proof.
  induction fuel as [|fuel IH]; intros d elems H.
  - cbn. destruct H as [H|H]; [|exact H].
    unfold loopCondition. destruct (Z.ltb_spec 0 (DecoderLen d)); [lia | reflexivity].
  - cbn [readElements].
    destruct (loopCondition d) eqn:C; [|exact C].
    destruct H as [H|H]; [|discriminate].
    unfold loopCondition in C. apply andb_true_iff in C. destruct C as [C1 C2].
    apply Z.ltb_lt in C1.
    assert (E : DecoderError d = None) by (destruct (DecoderError d); [discriminate | reflexivity]).
    pose proof (P d C1 E) as Q.
    destruct (ReadDataElement d) as [d' elem]. cbn [fst] in Q.
    apply IH. destruct Q as [Q|Q].
    + left. lia.
    + right. unfold loopCondition.
      destruct (DecoderError d'); [apply andb_false_r | congruence].
Qed.

(** With a library whose reads make progress, the loop of
    [DecodeDIMSEMessage] ends because its condition is false: the fuel of
    the embedding never cuts it short. *)
Lemma readAllElements_exits (P : ReadProgress L) (d : Decoder) :
  loopCondition (fst (readAllElements d)) = false.
Proof.
  unfold readAllElements. apply readElements_exits_aux; [exact P|].
  left. lia.
Qed.

End ElementFacts.

(** The reference codec makes progress. *)
Lemma ImplicitLE_progress : ReadProgress ImplicitLE.codec.
Proof.
  intros d Hlen Herr. cbn in *. unfold ImplicitLE.readElement.
  destruct d as [bs e]. cbn in *. subst e.
  do 8 (destruct bs as [|? bs]; [right; cbn; discriminate|]).
  match goal with |- context [Nat.leb ?a ?b] => destruct (Nat.leb_spec a b) end.
  - left. cbn [fst ImplicitLE.rest]. rewrite length_skipn. cbn [List.length]. lia.
  - right. cbn. discriminate.
Qed.

(** ** DecodeDIMSEMessage *)

(** Case analysis on every two-valued call a decoder makes: the value it
    returns and whether its error is nil. *)
Ltac each_call_result :=
  repeat match goal with
         | |- context [let '(_, _) := ?c in _] => destruct c as [? [?|]]
         end.

Section DecodeFacts.

Context {L : Library}.

(** Both command decoders return a message exactly when they return no
    error. *)
Lemma decodeC_STORE_RQ_result elems :
  (exists v, decodeC_STORE_RQ elems = (Some v, None))
  \/ (exists err, decodeC_STORE_RQ elems = (None, Some err)).
Proof.
  unfold decodeC_STORE_RQ.
  each_call_result; eauto.
Qed.

Lemma decodeC_STORE_RSP_result elems :
  (exists v, decodeC_STORE_RSP elems = (Some v, None))
  \/ (exists err, decodeC_STORE_RSP elems = (None, Some err)).
Proof.
  unfold decodeC_STORE_RSP.
  each_call_result; eauto.
Qed.

(** What [DecodeDIMSEMessage] can return: the nil interface with an error,
    a nil pointer of one of the two message types with an error, or a
    message without one. *)
Lemma DecodeDIMSEMessage_result io limit cmd err :
  DecodeDIMSEMessage io limit = Ret (cmd, err) ->
  (cmd = NilMessage /\ err <> None)
  \/ ((cmd = RQ None \/ cmd = RSP None) /\ err <> None)
  \/ ((exists v, cmd = RQ (Some v)) \/ (exists v, cmd = RSP (Some v))) /\ err = None.
Proof.
  unfold DecodeDIMSEMessage.
  destruct (readAllElements (NewDecoder io limit)) as [d elems].
  destruct (DecoderFinish d).
  { intros [= <- <-]. left. split; [reflexivity | discriminate]. }
  destruct (getUInt16FromElements elems TagCommandField) as [cf [e|]].
  { intros [= <- <-]. left. split; [reflexivity | discriminate]. }
  destruct (cf =? 1).
  { destruct (decodeC_STORE_RQ_result elems) as [[v ->]|[e ->]]; intros [= <- <-];
      right; [right | left]; split; eauto; discriminate. }
  destruct (cf =? 0x8001); [|discriminate].
  destruct (decodeC_STORE_RSP_result elems) as [[v ->]|[e ->]]; intros [= <- <-];
    right; [right | left]; split; eauto; discriminate.
Qed.

(** C2, as amended: when the element stream is read without error and its
    CommandField is neither 0x0001 nor 0x8001, [DecodeDIMSEMessage] does
    not return: it panics with "Unknown DIMSE command". *)
Theorem DecodeDIMSEMessage_unknown_command_panics io limit d elems commandField :
  readAllElements (NewDecoder io limit) = (d, elems) ->
  DecoderFinish d = None ->
  getUInt16FromElements elems TagCommandField = (commandField, None) ->
  commandField <> 1 ->
  commandField <> 0x8001 ->
  DecodeDIMSEMessage io limit = Panic (UnknownDIMSECommand commandField).
Proof.
  intros Hread Hfinish Hfield H1 H2. unfold DecodeDIMSEMessage.
  rewrite Hread, Hfinish, Hfield.
  destruct (Z.eqb_spec commandField 1); [contradiction|].
  destruct (Z.eqb_spec commandField 0x8001); [contradiction|].
  reflexivity.
Qed.

End DecodeFacts.

(** C2, witness: a C-ECHO-RQ command makes the decoder panic. *)
Lemma DecodeDIMSEMessage_unknown_command_witness :
  DecodeDIMSEMessage (L := ImplicitLE.codec) Samples.echoRQ (Samples.size Samples.echoRQ)
  = Panic (UnknownDIMSECommand 0x30).
Proof.
  eapply (DecodeDIMSEMessage_unknown_command_panics (L := ImplicitLE.codec)).
  - vm_compute. reflexivity.
  - reflexivity.
  - vm_compute. reflexivity.
  - lia.
  - lia.
Defined.

(** C2, counterexample: the command of a C-FIND-RQ is a well-formed group-0
    element stream whose CommandField, 0x0020, is neither 0x0001 nor 0x8001.
    [DecodeDIMSEMessage] does not return an error for it: it panics. *)
Lemma DecodeDIMSEMessage_unknown_command_no_error :
  getUInt16FromElements (L := ImplicitLE.codec)
    (snd (readAllElements (NewDecoder Samples.findRQ (Samples.size Samples.findRQ))))
    TagCommandField = (0x20, None)
  /\ DecodeDIMSEMessage (L := ImplicitLE.codec) Samples.findRQ (Samples.size Samples.findRQ)
     = Panic (UnknownDIMSECommand 0x20)
  /\ ~ (exists cmd err,
          DecodeDIMSEMessage (L := ImplicitLE.codec) Samples.findRQ (Samples.size Samples.findRQ)
          = Ret (cmd, Some err)).
Proof.
  split; [vm_compute; reflexivity|].
  assert (E : DecodeDIMSEMessage (L := ImplicitLE.codec) Samples.findRQ
                (Samples.size Samples.findRQ) = Panic (UnknownDIMSECommand 0x20))
    by (vm_compute; reflexivity).
  split; [exact E|].
  intros (cmd & err & H). rewrite E in H. discriminate.
Qed.

(** ** The C-STORE codec *)

Section StoreCodecFacts.

Context {L : Library}.

(** [decodeC_STORE_RSP] never assigns AffectedSOPInstanceUID: whatever the
    stream holds, the decoded response has the empty string there. *)
Lemma decodeC_STORE_RSP_instance_uid_empty elems v err :
  decodeC_STORE_RSP elems = (Some v, err) ->
  rspAffectedSOPInstanceUID v = EmptyString.
Proof.
  unfold decodeC_STORE_RSP.
  each_call_result; intros [= <- <-] || discriminate. reflexivity.
Qed.

(** No byte stream decodes to a response that carries an instance UID. *)
Lemma DecodeDIMSEMessage_RSP_instance_uid_empty io limit v err :
  DecodeDIMSEMessage io limit = Ret (RSP (Some v), err) ->
  rspAffectedSOPInstanceUID v = EmptyString.
Proof.
  unfold DecodeDIMSEMessage.
  destruct (readAllElements (NewDecoder io limit)) as [d elems].
  destruct (DecoderFinish d); [discriminate|].
  destruct (getUInt16FromElements elems TagCommandField) as [cf [e|]]; [discriminate|].
  destruct (cf =? 1).
  { destruct (decodeC_STORE_RQ elems). discriminate. }
  destruct (cf =? 0x8001); [|discriminate].
  destruct (decodeC_STORE_RSP elems) as [v' err'] eqn:E.
  intros [= -> ->]. eapply decodeC_STORE_RSP_instance_uid_empty. exact E.
Qed.

(** Dropping every (0000,1000) element from a stream does not change what
    [decodeC_STORE_RSP] returns: the element is not required. *)
Lemma decodeC_STORE_RSP_without_instance_uid elems :
  decodeC_STORE_RSP
    (filter (fun e => negb (Tag_eqb (ElementTag e) TagAffectedSOPInstanceUID)) elems)
  = decodeC_STORE_RSP elems.
Proof.
  unfold decodeC_STORE_RSP, getStringFromElements, getUInt16FromElements.
  rewrite !findElementWithTag_without by reflexivity. reflexivity.
Qed.

(** C5, at a C-STORE-RQ with MoveOriginatorApplicationEntityTitle "AE1"
    and MoveOriginatorMessageID 9: [Encode] writes the two values after the
    required elements under the tags (0000,0406) and (0000,0407), which are
    1030 and 1031 read as decimal numbers; neither is the tag the decoder
    looks up, (0000,1030) and (0000,1031). *)
Theorem C_STORE_RQ_Encode_move_originator_tags (e : Encoder) :
  C_STORE_RQ_Encode Samples.rqMove e
  = EncodeDataElement
      (EncodeDataElement (C_STORE_RQ_Encode Samples.rqMoveDecoded e)
         (mkTag 0 0x0406) [VString "AE1"])
      (mkTag 0 0x0407) [VUInt16 9]
  /\ Tag_eqb (mkTag 0 0x0406) TagMoveOriginatorApplicationEntityTitle = false
  /\ Tag_eqb (mkTag 0 0x0407) TagMoveOriginatorMessageID = false.
Proof. repeat split. Qed.

End StoreCodecFacts.

(** A request without move originator fields survives the round trip on the
    reference codec. *)
Example C_STORE_RQ_roundtrip_plain :
  roundTrip (L := ImplicitLE.codec) (RQ (Some Samples.rqMoveDecoded))
  = Ret (RQ (Some Samples.rqMoveDecoded), None).
Proof. vm_compute. reflexivity. Qed.

(** C1, at a C-STORE-RSP with AffectedSOPInstanceUID "1.2.3.4" and at a
    C-STORE-RQ with move originator fields.  Whatever the element codec,
    encoding the response and decoding the bytes does not give the response
    back.  On the reference codec both round trips succeed, and return a
    message with the instance UID, respectively the move originator fields,
    reset to their zero values. *)
Theorem C_STORE_roundtrip_loses_fields :
  (forall L : Library,
      roundTrip (L := L) (RSP (Some Samples.rsp)) <> Ret (RSP (Some Samples.rsp), None))
  /\ roundTrip (L := ImplicitLE.codec) (RSP (Some Samples.rsp))
     = Ret (RSP (Some Samples.rspDecoded), None)
  /\ roundTrip (L := ImplicitLE.codec) (RQ (Some Samples.rqMove))
     = Ret (RQ (Some Samples.rqMoveDecoded), None)
  /\ Samples.rqMoveDecoded <> Samples.rqMove.
Proof.
  split.
  { intros L H. unfold roundTrip in H.
    destruct (encodeDIMSEMessage (RSP (Some Samples.rsp))) as [[bytes [e|]]|];
      cbn in H; try discriminate.
    apply DecodeDIMSEMessage_RSP_instance_uid_empty in H. discriminate. }
  split; [vm_compute; reflexivity|].
  split; [vm_compute; reflexivity|].
  discriminate.
Qed.

(** C6, at a C-STORE-RSP command that has no AffectedSOPInstanceUID element:
    the decoder does not look for the element and returns the response
    without error.  For every element codec, taking the element out of a
    stream leaves the result of [decodeC_STORE_RSP] as it is. *)
Theorem DecodeDIMSEMessage_RSP_without_instance_uid :
  (forall (L : Library) (elems : list DicomElement),
      decodeC_STORE_RSP
        (filter (fun e => negb (Tag_eqb (ElementTag e) TagAffectedSOPInstanceUID)) elems)
      = decodeC_STORE_RSP elems)
  /\ findElementWithTag (L := ImplicitLE.codec)
    (snd (readAllElements
            (NewDecoder Samples.rspWithoutInstance (Samples.size Samples.rspWithoutInstance))))
    TagAffectedSOPInstanceUID
  = inr (ElementNotFound TagAffectedSOPInstanceUID)
  /\ DecodeDIMSEMessage (L := ImplicitLE.codec)
       Samples.rspWithoutInstance (Samples.size Samples.rspWithoutInstance)
     = Ret (RSP (Some Samples.rspDecoded), None).
Proof.
  split; [intros L elems; apply decodeC_STORE_RSP_without_instance_uid|].
  split; vm_compute; reflexivity.
Qed.

(** ** The command assembler *)

Section AssemblerFacts.

Context {L : Library}.
Variable contextIDMap : Type.
Variable names : contextIDMap -> Z -> string * option error.


(** *** The loop over the PDVs *)

Lemma addItem_ret a item a' :
  addItem a item = Ret a' ->
  contextID a' = (if contextID a =? 0 then ContextID item else contextID a)
  /\ (contextID a <> 0 -> ContextID item = contextID a)
  /\ commandBytes a' = commandBytes a ++ (if Command item then Value item else [])
  /\ dataBytes a' = dataBytes a ++ (if Command item then [] else Value item)
  /\ command a' = command a.
Proof.
  unfold addItem.
  destruct (Z.eqb_spec (contextID a) 0) as [E0|E0]; cbn.
  - destruct (Command item), (Last item); cbn;
      try (destruct (readAllCommand a)); try (destruct (readAllData a)); cbn;
      intros [= <-]; cbn; rewrite ?app_nil_r; repeat split; congruence.
  - destruct (Z.eqb_spec (contextID a) (ContextID item)) as [E|E]; cbn; [|discriminate].
    destruct (Command item), (Last item); cbn;
      try (destruct (readAllCommand a)); try (destruct (readAllData a)); cbn;
      intros [= <-]; cbn; rewrite ?app_nil_r; repeat split; congruence.
Qed.

Lemma addItems_ret items : forall a a',
  addItems a items = Ret a' ->
  commandBytes a' = commandBytes a
                    ++ flat_map (fun item => if Command item then Value item else []) items
  /\ dataBytes a' = dataBytes a
                    ++ flat_map (fun item => if Command item then [] else Value item) items
  /\ command a' = command a.
Proof.
  induction items as [|item rest IH]; intros a a'; cbn.
  - intros [= <-]. rewrite !app_nil_r. auto.
  - destruct (addItem a item) as [a1|] eqn:E; cbn; [|discriminate].
    intros H. apply IH in H. apply addItem_ret in E.
    destruct E as (_ & _ & Ec & Ed & Em), H as (Hc & Hd & Hm).
    rewrite Hc, Hd, Hm, Ec, Ed, Em, <- !app_assoc. auto.
Qed.

(** Once a context is adopted, a PDV of another context makes the loop
    panic; the loop never gets past it. *)
Lemma addItems_mixed_context_panics items : forall a,
  contextID a <> 0 ->
  (exists item, In item items /\ ContextID item <> contextID a) ->
  exists p, addItems a items = Panic p.
Proof.
  induction items as [|x rest IH]; intros a Ha (item & Hin & Hne).
  - destruct Hin.
  - cbn. destruct (addItem a x) as [a1|p] eqn:E; cbn; [|eauto].
    apply addItem_ret in E. destruct E as (Ec & Ex & _).
    destruct (Z.eqb_spec (contextID a) 0); [contradiction|].
    apply IH; [congruence|].
    destruct Hin as [<-|Hin].
    + elim Hne. auto.
    + exists item. split; [exact Hin | congruence].
Qed.

(** C3, in general: with a context adopted, a P-DATA-TF that carries a PDV
    of another context makes [addPDataTF] panic; no error is returned. *)
Theorem addPDataTF_mixed_context_panics a pdu m :
  contextID a <> 0 ->
  (exists item, In item (Items pdu) /\ ContextID item <> contextID a) ->
  exists p, addPDataTF names a pdu m = Panic p.
Proof.
  intros Ha Hitem. unfold addPDataTF.
  destruct (addItems_mixed_context_panics _ _ Ha Hitem) as [p ->].
  exists p. reflexivity.
Qed.

(** *** The cases of a call that returns *)

Lemma ensureDecoded_ret a a2 err :
  ensureDecoded a = Ret (a2, err) ->
  (isNilMessage (command a) = false /\ a2 = a /\ err = None)
  \/ (command a = NilMessage
      /\ exists cmd,
           DecodeDIMSEMessage (commandBytes a) (Z.of_nat (List.length (commandBytes a)))
           = Ret (cmd, err)
           /\ a2 = withCommand a cmd).
Proof.
  unfold ensureDecoded. destruct (command a) eqn:C; cbn.
  - destruct (DecodeDIMSEMessage _ _) as [[cmd e]|]; cbn; [|discriminate].
    intros [= <- <-]. right. split; [reflexivity|]. exists cmd. auto.
  - intros [= <- <-]. left. auto.
  - intros [= <- <-]. left. auto.
Qed.

(** [HasData] returns only for a non-nil pointer, and then the assertion has
    fixed the answer: a request has data, a response has none. *)
Lemma HasData_ret cmd hd :
  HasData cmd = Ret hd ->
  (exists v, cmd = RQ (Some v) /\ rqCommandDataSetType v <> CommandDataSetTypeNull
             /\ hd = true)
  \/ (exists v, cmd = RSP (Some v) /\ rspCommandDataSetType v = CommandDataSetTypeNull
                /\ hd = false).
Proof.
  destruct cmd as [|[v|]|[v|]]; cbn; try discriminate.
  - unfold C_STORE_RQ_HasData.
    destruct (Z.eqb_spec (rqCommandDataSetType v) CommandDataSetTypeNull); cbn;
      [discriminate|].
    intros [= <-]. left. eauto.
  - unfold C_STORE_RSP_HasData.
    destruct (Z.eqb_spec (rspCommandDataSetType v) CommandDataSetTypeNull); cbn;
      [|discriminate].
    intros [= <-]. right. eauto.
Qed.

Lemma addPDataTF_ret a pdu m a' r :
  addPDataTF names a pdu m = Ret (a', r) ->
  exists a1,
    addItems a (Items pdu) = Ret a1
    /\ ((readAllCommand a1 = false /\ a' = a1 /\ r = nothing None)
        \/ (readAllCommand a1 = true
            /\ exists a2 err,
                 ensureDecoded a1 = Ret (a2, err)
                 /\ match err with
                    | Some e => a' = a2 /\ r = nothing (Some e)
                    | None =>
                        exists hd,
                          HasData (command a2) = Ret hd
                          /\ if hd && negb (readAllData a2)
                             then a' = a2 /\ r = nothing None
                             else a' = emptyAssembler
                                  /\ r = mkAssembled (fst (names m (contextID a2)))
                                           (command a2) (dataBytes a2) None
                    end)).
Proof.
  unfold addPDataTF.
  destruct (addItems a (Items pdu)) as [a1|]; cbn; [|discriminate].
  intros H. exists a1. split; [reflexivity|].
  destruct (readAllCommand a1); cbn in H.
  - right. split; [reflexivity|].
    destruct (ensureDecoded a1) as [[a2 err]|]; cbn in H; [|discriminate].
    exists a2, err. split; [reflexivity|].
    destruct err as [e|].
    + injection H as <- <-. auto.
    + destruct (HasData (command a2)) as [hd|]; cbn in H; [|discriminate].
      exists hd. split; [reflexivity|].
      destruct (hd && negb (readAllData a2)).
      * injection H as <- <-. auto.
      * destruct (names m (contextID a2)) as [name e]. injection H as <- <-. auto.
  - left. injection H as <- <-. auto.
Qed.

(** C8: a call that hands a command up leaves the assembler in the empty
    state, its zero value, so that the next PDV is taken as the first of a
    new message: its context is adopted and its value starts the buffers. *)
Theorem addPDataTF_emit_resets a pdu m a' r :
  addPDataTF names a pdu m = Ret (a', r) ->
  isNilMessage (asCommand r) = false ->
  (contextID a' = 0 /\ commandBytes a' = [] /\ dataBytes a' = []
   /\ command a' = NilMessage /\ readAllCommand a' = false /\ readAllData a' = false)
  /\ forall item, exists a2,
       addItem a' item = Ret a2
       /\ contextID a2 = ContextID item
       /\ commandBytes a2 = (if Command item then Value item else [])
       /\ dataBytes a2 = (if Command item then [] else Value item).
Proof.
  intros H Hcmd. apply addPDataTF_ret in H.
  destruct H as (a1 & _ & [(_ & _ & ->)|(_ & a2 & err & _ & H)]); [discriminate|].
  assert (E : a' = emptyAssembler).
  { destruct err as [e|].
    - destruct H as (_ & ->). discriminate.
    - destruct H as (hd & _ & H). destruct (hd && negb (readAllData a2)).
      + destruct H as (_ & ->). discriminate.
      + apply H. }
  subst a'. split; [cbn; auto 10|].
  intros item. unfold addItem. cbn.
  destruct (Command item), (Last item); cbn; eexists; repeat split.
Qed.


(** C4, as amended: once the command fragments are complete and decode to a
    C-STORE-RSP whose CommandDataSetType is Null, the call hands the
    message up whether or not a data fragment carried the last bit, with
    the data bytes gathered so far. *)
Theorem addPDataTF_null_response_emits a pdu m a1 v :
  addItems a (Items pdu) = Ret a1 ->
  readAllCommand a1 = true ->
  command a1 = NilMessage ->
  DecodeDIMSEMessage (commandBytes a1) (Z.of_nat (List.length (commandBytes a1)))
  = Ret (RSP (Some v), None) ->
  rspCommandDataSetType v = CommandDataSetTypeNull ->
  addPDataTF names a pdu m
  = Ret (emptyAssembler,
         mkAssembled (fst (names m (contextID a1))) (RSP (Some v)) (dataBytes a1) None).
Proof.
  intros Hitems Hall Hcmd Hdec Hnull.
  unfold addPDataTF. rewrite Hitems. cbn. rewrite Hall. cbn.
  unfold ensureDecoded. rewrite Hcmd. cbn. rewrite Hdec. cbn.
  unfold C_STORE_RSP_HasData. rewrite Hnull. cbn.
  destruct (names m (contextID a1)). reflexivity.
Qed.

(** A C-STORE-RQ whose CommandDataSetType is Null fails the assertion of
    [HasData] instead. *)
Lemma addPDataTF_null_request_asserts a pdu m a1 v :
  addItems a (Items pdu) = Ret a1 ->
  readAllCommand a1 = true ->
  command a1 = NilMessage ->
  DecodeDIMSEMessage (commandBytes a1) (Z.of_nat (List.length (commandBytes a1)))
  = Ret (RQ (Some v), None) ->
  rqCommandDataSetType v = CommandDataSetTypeNull ->
  addPDataTF names a pdu m = Panic AssertionFailed.
Proof.
  intros Hitems Hall Hcmd Hdec Hnull.
  unfold addPDataTF. rewrite Hitems. cbn. rewrite Hall. cbn.
  unfold ensureDecoded. rewrite Hcmd. cbn. rewrite Hdec. cbn.
  unfold C_STORE_RQ_HasData. rewrite Hnull. reflexivity.
Qed.

(** *** A failed decode *)

(** A call that returns an error has seen the whole command; it keeps the
    context, both buffers and both flags as the loop left them and stores
    what the decoder returned in [command]. *)
Lemma addPDataTF_error_keeps_state a pdu m a' r e :
  addPDataTF names a pdu m = Ret (a', r) ->
  asErr r = Some e ->
  exists a1 cmd,
    addItems a (Items pdu) = Ret a1
    /\ readAllCommand a1 = true
    /\ command a1 = NilMessage
    /\ DecodeDIMSEMessage (commandBytes a1) (Z.of_nat (List.length (commandBytes a1)))
       = Ret (cmd, Some e)
    /\ a' = withCommand a1 cmd
    /\ r = nothing (Some e).
Proof.
  intros H He. apply addPDataTF_ret in H.
  destruct H as (a1 & Hitems & [(_ & _ & ->)|(Hall & a2 & err & Hdec & H)]);
    [discriminate|].
  destruct err as [e'|].
  - destruct H as (-> & ->). cbn in He. injection He as ->.
    apply ensureDecoded_ret in Hdec.
    destruct Hdec as [(_ & _ & [=])|(Hnil & cmd & Hdec & ->)].
    exists a1, cmd. auto 10.
  - destruct H as (hd & _ & H). destruct (hd && negb (readAllData a2));
      destruct H as (_ & ->); discriminate.
Qed.

(** When the failed decode left the nil interface in [command], a later
    call decodes the accumulated command bytes again. *)
Lemma addPDataTF_retries_after_nil a m r :
  readAllCommand a = true ->
  command a = NilMessage ->
  DecodeDIMSEMessage (commandBytes a) (Z.of_nat (List.length (commandBytes a))) = Ret r ->
  addPDataTF names a (mkPDataTF []) m
  = (let '(cmd, err) := r in
     match err with
     | Some e => Ret (withCommand a cmd, nothing (Some e))
     | None =>
         hasData <- HasData cmd ;;
         if hasData && negb (readAllData a) then Ret (withCommand a cmd, nothing None)
         else Ret (emptyAssembler,
                   mkAssembled (fst (names m (contextID a))) cmd (dataBytes a) None)
     end).
Proof.
  intros Hall Hcmd Hdec.
  unfold addPDataTF. cbn. rewrite Hall. cbn.
  unfold ensureDecoded. rewrite Hcmd. cbn. rewrite Hdec. cbn.
  destruct r as [cmd [e|]]; [reflexivity|]. cbn.
  destruct (HasData cmd) as [hd|]; cbn; [|reflexivity].
  destruct (hd && negb (readAllData a)); [reflexivity|].
  destruct (names m (contextID a)). reflexivity.
Qed.

(** When it left a nil pointer there, [command] is not [nil] any more: a
    later call does not decode and panics in [HasData]. *)
Lemma addPDataTF_panics_after_nil_pointer a m :
  readAllCommand a = true ->
  command a = RQ None \/ command a = RSP None ->
  addPDataTF names a (mkPDataTF []) m = Panic NilPointerDereference.
Proof.
  intros Hall Hcmd.
  unfold addPDataTF. cbn. rewrite Hall. cbn.
  unfold ensureDecoded. destruct Hcmd as [E|E]; rewrite E; cbn; rewrite E; reflexivity.
Qed.

(** *** Runs of calls *)

Lemma feed_app xs : forall a ys m,
  feed names a (xs ++ ys) m
  = match feed names a xs m with
    | Some b => feed names b ys m
    | None => None
    end.
Proof.
  induction xs as [|x xs IH]; intros a ys m; cbn; [reflexivity|].
  destruct (addPDataTF names a x m) as [[a' r]|]; [|reflexivity].
  destruct (isNilMessage (asCommand r)); [apply IH | reflexivity].
Qed.

Lemma commandPayload_snoc pdus pdu :
  commandPayload (pdus ++ [pdu])
  = commandPayload pdus
    ++ flat_map (fun item => if Command item then Value item else []) (Items pdu).
Proof. unfold commandPayload. rewrite flat_map_app. cbn. rewrite app_nil_r. reflexivity. Qed.

Lemma dataPayload_snoc pdus pdu :
  dataPayload (pdus ++ [pdu])
  = dataPayload pdus
    ++ flat_map (fun item => if Command item then [] else Value item) (Items pdu).
Proof. unfold dataPayload. rewrite flat_map_app. cbn. rewrite app_nil_r. reflexivity. Qed.

Lemma firstn_within {A} (k : nat) (xs ys : list A) :
  (k <= List.length xs)%nat -> firstn k (xs ++ ys) = firstn k xs.
Proof.
  intros H. rewrite firstn_app.
  replace (k - List.length xs)%nat with O by lia. cbn. apply app_nil_r.
Qed.

(** A later call does not change which call decoded the command. *)
Lemma decodedIn_snoc pdus pdu m k cmd err :
  (k < List.length pdus)%nat ->
  decodedIn names pdus m k cmd err ->
  decodedIn names (pdus ++ [pdu]) m k cmd err.
Proof.
  intros Hk (before & Hfeed & Hnil & Hdec). exists before.
  rewrite !firstn_within by lia. auto.
Qed.

(** The call after a run decodes the command if the run left none. *)
Lemma decodedIn_last pdus pdu m a cmd err :
  feed names emptyAssembler pdus m = Some a ->
  command a = NilMessage ->
  DecodeDIMSEMessage (commandPayload (pdus ++ [pdu]))
    (Z.of_nat (List.length (commandPayload (pdus ++ [pdu])))) = Ret (cmd, err) ->
  decodedIn names (pdus ++ [pdu]) m (List.length pdus) cmd err.
Proof.
  intros Hfeed Hnil Hdec. exists a.
  rewrite firstn_within, firstn_all by lia.
  rewrite (firstn_all2 (n := S (List.length pdus)))
    by (rewrite length_app; cbn; lia).
  auto.
Qed.

(** The empty assembler has gathered the empty run. *)
Lemma gathered_nil m : gathered names [] m emptyAssembler.
Proof. repeat split. left. reflexivity. Qed.

(** One call after a run: either it hands nothing up and the assembler has
    gathered the longer run, or it hands up the data bytes of the whole run
    and the command that one of the calls decoded. *)
Lemma addPDataTF_after_run pdus pdu m a a' r :
  gathered names pdus m a ->
  addPDataTF names a pdu m = Ret (a', r) ->
  if isNilMessage (asCommand r)
  then gathered names (pdus ++ [pdu]) m a'
  else asDataBytes r = dataPayload (pdus ++ [pdu])
       /\ exists k, (k < List.length (pdus ++ [pdu]))%nat
                    /\ decodedIn names (pdus ++ [pdu]) m k (asCommand r) None.
Proof.
  intros (Hfeed & Hc & Hd & Hdec) Hcall.
  assert (Hnext : isNilMessage (asCommand r) = true ->
                  feed names emptyAssembler (pdus ++ [pdu]) m = Some a').
  { intros E. rewrite feed_app, Hfeed. cbn. rewrite Hcall, E. reflexivity. }
  apply addPDataTF_ret in Hcall. destruct Hcall as (a1 & Hitems & Hcases).
  apply addItems_ret in Hitems. destruct Hitems as (Hc1 & Hd1 & Hm1).
  rewrite Hc, <- commandPayload_snoc in Hc1.
  rewrite Hd, <- dataPayload_snoc in Hd1.
  assert (Hlen : List.length (pdus ++ [pdu]) = S (List.length pdus))
    by (rewrite length_app; cbn; lia).
  assert (Hkept : command a1 = NilMessage
                  \/ exists k err, (k < List.length (pdus ++ [pdu]))%nat
                                   /\ decodedIn names (pdus ++ [pdu]) m k (command a1) err).
  { rewrite Hm1. destruct Hdec as [Hdec|(k & err & Hk & Hdec)]; [left; exact Hdec|].
    right. exists k, err. split; [lia|]. apply decodedIn_snoc; assumption. }
  assert (Hstep : forall a2 err,
            ensureDecoded a1 = Ret (a2, err) ->
            commandBytes a2 = commandPayload (pdus ++ [pdu])
            /\ dataBytes a2 = dataPayload (pdus ++ [pdu])
            /\ exists k err', (k < List.length (pdus ++ [pdu]))%nat
                 /\ decodedIn names (pdus ++ [pdu]) m k (command a2) err'
                 /\ (command a1 = NilMessage -> err' = err)).
  { intros a2 err E. apply ensureDecoded_ret in E.
    destruct E as [(Hnn & -> & ->)|(Hnil & cmd & Hd2 & ->)].
    - split; [exact Hc1|]. split; [exact Hd1|].
      destruct Hkept as [Hnil|(k & err' & Hk & Hin)].
      + rewrite Hnil in Hnn. discriminate.
      + exists k, err'. split; [exact Hk|]. split; [exact Hin|].
        intros Hnil. rewrite Hnil in Hnn. discriminate.
    - cbn. split; [exact Hc1|]. split; [exact Hd1|].
      exists (List.length pdus), err. split; [lia|]. split; [|reflexivity].
      rewrite Hc1 in Hd2. rewrite Hm1 in Hnil.
      eapply decodedIn_last; eassumption. }
  destruct Hcases as [(Hall & -> & ->)|(Hall & a2 & err & Hdec2 & Hcase)].
  - cbn. cbn in Hnext. repeat split; auto.
  - destruct (Hstep a2 err Hdec2) as (Hc2 & Hd2 & k & err' & Hk & Hin & Herr).
    destruct err as [e|].
    + destruct Hcase as (-> & ->). cbn. cbn in Hnext.
      repeat split; auto. right. eauto.
    + destruct Hcase as (hd & Hhd & Hcase).
      destruct (hd && negb (readAllData a2)).
      * destruct Hcase as (-> & ->). cbn. cbn in Hnext.
        repeat split; auto. right. eauto.
      * destruct Hcase as (-> & ->). cbn.
        apply HasData_ret in Hhd.
        assert (Hsome : isNilMessage (command a2) = false /\ err' = None).
        { destruct Hin as (before & _ & _ & Hdecode).
          apply DecodeDIMSEMessage_result in Hdecode.
          destruct Hhd as [(v & Hv & _)|(v & Hv & _)]; rewrite Hv in *;
            (split; [reflexivity|]);
            destruct Hdecode as [(E & _)|[([E|E] & _)|(_ & E)]];
            try discriminate; exact E. }
        destruct Hsome as (Hsome & ->). rewrite Hsome.
        split; [exact Hd2|]. exists k. split; [exact Hk | exact Hin].
Qed.

(** A run of calls from the empty assembler gathers what it was fed. *)
Lemma feed_gathered pdus m : forall a,
  feed names emptyAssembler pdus m = Some a -> gathered names pdus m a.
Proof.
  induction pdus as [|pdu pdus IH] using rev_ind; intros a.
  - cbn. intros [= <-]. apply gathered_nil.
  - rewrite feed_app.
    destruct (feed names emptyAssembler pdus m) as [b|] eqn:Hb; [|discriminate].
    cbn. destruct (addPDataTF names b pdu m) as [[a' r]|] eqn:Hcall; [|discriminate].
    destruct (isNilMessage (asCommand r)) eqn:Hnil; [|discriminate].
    intros [= <-].
    pose proof (addPDataTF_after_run _ _ _ _ _ _ (IH b eq_refl) Hcall) as H.
    rewrite Hnil in H. exact H.
Qed.

(** C7, as amended: when a run of calls from the empty assembler ends with
    a call that hands a message up, the data bytes returned are the value
    bytes of all data PDVs of the run, in arrival order, and the command
    returned is what the command bytes decode to as they stood at the end
    of the call that decoded them, call number [k], before which no command
    was stored.  These are all the command bytes of the run when no
    command PDV with a non-empty value arrived after that call. *)
Theorem addPDataTF_emits_gathered pdus pdu m a a' r :
  feed names emptyAssembler pdus m = Some a ->
  addPDataTF names a pdu m = Ret (a', r) ->
  isNilMessage (asCommand r) = false ->
  asDataBytes r = dataPayload (pdus ++ [pdu])
  /\ exists k,
       (k < List.length (pdus ++ [pdu]))%nat
       /\ decodedIn names (pdus ++ [pdu]) m k (asCommand r) None
       /\ (commandPayload (skipn (S k) (pdus ++ [pdu])) = [] ->
           DecodeDIMSEMessage (commandPayload (pdus ++ [pdu]))
             (Z.of_nat (List.length (commandPayload (pdus ++ [pdu]))))
           = Ret (asCommand r, None)).
Proof.
  intros Hfeed Hcall Hcmd.
  pose proof (addPDataTF_after_run _ _ _ _ _ _ (feed_gathered _ _ _ Hfeed) Hcall) as H.
  rewrite Hcmd in H. destruct H as (Hdata & k & Hk & Hin).
  split; [exact Hdata|]. exists k. split; [exact Hk|]. split; [exact Hin|].
  intros Hrest. destruct Hin as (_ & _ & _ & Hdec).
  assert (E : commandPayload (pdus ++ [pdu])
              = commandPayload (firstn (S k) (pdus ++ [pdu]))).
  { rewrite <- (firstn_skipn (S k) (pdus ++ [pdu])) at 1.
    unfold commandPayload in *. rewrite flat_map_app, Hrest. apply app_nil_r. }
  rewrite E. exact Hdec.
Qed.

End AssemblerFacts.

(** *** The assembler on concrete PDUs *)

(** The bytes of the command that holds a CommandField only: tag
    (0000,0100), length 2, value 1. *)
Example commandFieldOnly_bytes :
  Samples.commandFieldOnly = [x00; x00; x00; x01; x02; x00; x00; x00; x01; x00].
Proof. reflexivity. Qed.

(** C3, witness: the assembler is in the middle of a message on context 1
    and the PDU carries a PDV of context 3. *)
Lemma addPDataTF_mixed_context_witness :
  exists p,
    addPDataTF (L := ImplicitLE.codec) Samples.contextNames
      Samples.midMessage Samples.pduOtherContext tt = Panic p.
Proof.
  apply (addPDataTF_mixed_context_panics (L := ImplicitLE.codec) unit Samples.contextNames
           Samples.midMessage Samples.pduOtherContext tt).
  - cbn. lia.
  - exists (Samples.commandPDV 3 false [x00]). split.
    + left. reflexivity.
    + cbn. lia.
Defined.

(** The panic of that call is the one of the context check. *)
Example addPDataTF_mixed_context_example :
  addPDataTF (L := ImplicitLE.codec) Samples.contextNames
    Samples.midMessage Samples.pduOtherContext tt = Panic (MixedContext 1 3).
Proof. reflexivity. Qed.

(** C4, witness: a C-STORE-RSP command in one PDV; no data PDV arrives. *)
Lemma addPDataTF_null_response_witness :
  addPDataTF (L := ImplicitLE.codec) Samples.contextNames
    emptyAssembler Samples.pduRSP tt
  = Ret (emptyAssembler,
         mkAssembled Samples.storageClass (RSP (Some Samples.rspDecoded)) [] None).
Proof.
  apply (addPDataTF_null_response_emits (L := ImplicitLE.codec) unit Samples.contextNames
           emptyAssembler Samples.pduRSP tt
           (mkAssembler 1 (Samples.encoded (RSP (Some Samples.rsp))) NilMessage [] true false)
           Samples.rspDecoded).
  - vm_compute. reflexivity.
  - reflexivity.
  - reflexivity.
  - vm_compute. reflexivity.
  - reflexivity.
Defined.

(** C4, counterexample: the command fragments of [pduRQNull] are complete
    and decode to a C-STORE-RQ whose CommandDataSetType is Null, yet the call
    hands no message up: the assertion of [HasData] panics.  And the
    response of [pduDataThenRSP] is handed up with the two data bytes that
    arrived before it, not with empty data. *)
Lemma addPDataTF_null_request_does_not_emit :
  DecodeDIMSEMessage (L := ImplicitLE.codec) (commandPayload [Samples.pduRQNull])
    (Samples.size (commandPayload [Samples.pduRQNull]))
  = Ret (RQ (Some Samples.rqNull), None)
  /\ rqCommandDataSetType Samples.rqNull = CommandDataSetTypeNull
  /\ addPDataTF (L := ImplicitLE.codec) Samples.contextNames
       emptyAssembler Samples.pduRQNull tt = Panic AssertionFailed
  /\ addPDataTF (L := ImplicitLE.codec) Samples.contextNames
       emptyAssembler Samples.pduDataThenRSP tt
     = Ret (emptyAssembler,
            mkAssembled Samples.storageClass (RSP (Some Samples.rspDecoded))
              [x01; x02] None).
Proof. repeat split; vm_compute; reflexivity. Qed.

(** C7, witness: a request command in one call, its data in the next. *)
Lemma addPDataTF_emits_gathered_witness :
  [x01; x02] = dataPayload ([Samples.pduRQ] ++ [Samples.pduData])
  /\ exists k,
       (k < List.length ([Samples.pduRQ] ++ [Samples.pduData]))%nat
       /\ decodedIn (L := ImplicitLE.codec) Samples.contextNames
            ([Samples.pduRQ] ++ [Samples.pduData]) tt k
            (RQ (Some Samples.rqMoveDecoded)) None
       /\ (commandPayload (skipn (S k) ([Samples.pduRQ] ++ [Samples.pduData])) = [] ->
           DecodeDIMSEMessage (L := ImplicitLE.codec)
             (commandPayload ([Samples.pduRQ] ++ [Samples.pduData]))
             (Z.of_nat (List.length (commandPayload ([Samples.pduRQ] ++ [Samples.pduData]))))
           = Ret (RQ (Some Samples.rqMoveDecoded), None)).
Proof.
  apply (addPDataTF_emits_gathered (L := ImplicitLE.codec) unit Samples.contextNames
           [Samples.pduRQ] Samples.pduData tt
           (mkAssembler 1 (Samples.encoded (RQ (Some Samples.rqMoveDecoded)))
              (RQ (Some Samples.rqMoveDecoded)) [] true false)
           emptyAssembler
           (mkAssembled Samples.storageClass (RQ (Some Samples.rqMoveDecoded))
              [x01; x02] None)).
  - vm_compute. reflexivity.
  - vm_compute. reflexivity.
  - reflexivity.
Defined.

(** C7, counterexample: the request command arrives complete in the first
    call and is decoded there; the second call brings one more command
    fragment and the last data fragment.  The call hands up the command
    decoded in the first call, while the command bytes accumulated since the
    reset, the fragment included, do not decode at all. *)
Lemma addPDataTF_command_not_from_all_bytes :
  exists a,
    feed (L := ImplicitLE.codec) Samples.contextNames emptyAssembler [Samples.pduRQ] tt
    = Some a
    /\ addPDataTF (L := ImplicitLE.codec) Samples.contextNames a Samples.pduStrayThenData tt
       = Ret (emptyAssembler,
              mkAssembled Samples.storageClass (RQ (Some Samples.rqMoveDecoded))
                [x01; x02] None)
    /\ commandPayload [Samples.pduRQ; Samples.pduStrayThenData]
       = Samples.encoded (RQ (Some Samples.rqMoveDecoded)) ++ [x00]
    /\ DecodeDIMSEMessage (L := ImplicitLE.codec)
         (commandPayload [Samples.pduRQ; Samples.pduStrayThenData])
         (Samples.size (commandPayload [Samples.pduRQ; Samples.pduStrayThenData]))
       = Ret (NilMessage, Some (LibraryError "truncated element header")).
Proof.
  exists (mkAssembler 1 (Samples.encoded (RQ (Some Samples.rqMoveDecoded)))
            (RQ (Some Samples.rqMoveDecoded)) [] true false).
  repeat split; vm_compute; reflexivity.
Qed.

(** C8, witness: the call that hands up a C-STORE-RSP. *)
Lemma addPDataTF_emit_resets_witness :
  (contextID emptyAssembler = 0 /\ commandBytes emptyAssembler = []
   /\ dataBytes emptyAssembler = [] /\ command emptyAssembler = NilMessage
   /\ readAllCommand emptyAssembler = false /\ readAllData emptyAssembler = false)
  /\ forall item, exists a2,
       addItem emptyAssembler item = Ret a2
       /\ contextID a2 = ContextID item
       /\ commandBytes a2 = (if Command item then Value item else [])
       /\ dataBytes a2 = (if Command item then [] else Value item).
Proof.
  apply (addPDataTF_emit_resets (L := ImplicitLE.codec) unit Samples.contextNames
           emptyAssembler Samples.pduRSP tt emptyAssembler
           (mkAssembled Samples.storageClass (RSP (Some Samples.rspDecoded)) [] None)).
  - vm_compute. reflexivity.
  - reflexivity.
Defined.

(** C10, at a command that holds a CommandField of 1 and nothing else: the
    call returns the error of the missing AffectedSOPClassUID and keeps the
    buffers and flags, but it stores the nil [*C_STORE_RQ] of the failed
    decoder in [command].  That interface value is not nil, so the next call
    does not decode again: it calls [HasData] through the nil pointer and
    panics. *)
Theorem addPDataTF_failed_decode_not_retried :
  addPDataTF (L := ImplicitLE.codec) Samples.contextNames
    emptyAssembler Samples.pduCommandFieldOnly tt
  = Ret (Samples.afterFailedDecode,
         nothing (Some (ElementNotFound TagAffectedSOPClassUID)))
  /\ isNilMessage (command Samples.afterFailedDecode) = false
  /\ addPDataTF (L := ImplicitLE.codec) Samples.contextNames
       Samples.afterFailedDecode Samples.pduEmpty tt
     = Panic NilPointerDereference.
Proof. repeat split; vm_compute; reflexivity. Qed.

(** ** The sample server *)

Section ServerFacts.

Import SampleServer.

Variables Element DataSet : Type.
Variable ElementTag : Element -> Tag.
Variable Query : DataSet -> Element -> bool * option Element * option error.
Variable NewElement : Tag -> Element + error.
Variable ReadDataSetFromFile : string -> option DataSet * option error.

(** The loop sends one response per match. *)
Lemma moveResponses_length (matches : list (filterMatch Element)) : forall n i,
  List.length (moveResponses ReadDataSetFromFile n i matches) = List.length matches.
Proof.
  induction matches as [|x rest IH]; intros n i; cbn; [reflexivity|].
  destruct (ReadDataSetFromFile (path x)) as [ds [e|]]; cbn; rewrite IH; reflexivity.
Qed.

(** The response at position [k] of the loop that starts at index [i]
    carries [n - (i + k) - 1], whether or not its file could be read. *)
Lemma moveResponses_nth (matches : list (filterMatch Element)) : forall n i k r,
  nth_error (moveResponses ReadDataSetFromFile n i matches) k = Some r ->
  Remaining r = n - (i + Z.of_nat k) - 1.
Proof.
  induction matches as [|x rest IH]; intros n i k r; cbn.
  - destruct k; discriminate.
  - destruct k as [|k].
    + cbn. destruct (ReadDataSetFromFile (path x)) as [ds [e|]];
        intros [= <-]; cbn; lia.
    + destruct (ReadDataSetFromFile (path x)) as [ds [e|]]; cbn;
        intros H; apply IH in H; lia.
Qed.

(** C9: when the filters match [n >= 1] data sets, the channel yields [n]
    responses, the one at position [i] with [Remaining = n - i - 1]; the
    values strictly decrease along the channel and the last one is 0. *)
Theorem onCMoveOrCGet_remaining ss transferSyntaxUID sopClassUID filters matches :
  findMatchingFiles ElementTag Query NewElement ss filters = Ret (matches, None) ->
  (1 <= List.length matches)%nat ->
  exists results,
    onCMoveOrCGet ElementTag Query NewElement ReadDataSetFromFile
      ss transferSyntaxUID sopClassUID filters = Ret results
    /\ List.length results = List.length matches
    /\ (forall i r, nth_error results i = Some r ->
                    Remaining r = Z.of_nat (List.length matches) - Z.of_nat i - 1)
    /\ (forall i j ri rj, (i < j)%nat ->
                          nth_error results i = Some ri ->
                          nth_error results j = Some rj ->
                          Remaining rj < Remaining ri)
    /\ (exists r, nth_error results (List.length matches - 1) = Some r
                  /\ Remaining r = 0).
Proof.
  intros Hfind Hn. unfold onCMoveOrCGet. rewrite Hfind. cbn.
  set (n := Z.of_nat (List.length matches)).
  set (results := moveResponses ReadDataSetFromFile n 0 matches).
  assert (Hlen : List.length results = List.length matches)
    by apply moveResponses_length.
  assert (Hnth : forall i r, nth_error results i = Some r ->
                             Remaining r = n - Z.of_nat i - 1).
  { intros i r H. apply moveResponses_nth in H. lia. }
  exists results. split; [reflexivity|]. split; [exact Hlen|]. split; [exact Hnth|].
  split.
  - intros i j ri rj Hij Hi Hj. apply Hnth in Hi, Hj. lia.
  - destruct (nth_error results (List.length matches - 1)) as [r|] eqn:E.
    + exists r. split; [reflexivity|]. apply Hnth in E. lia.
    + apply nth_error_None in E. lia.
Qed.

End ServerFacts.

(** C9, witness: two of the three files of the store hold the tag of the
    filter; the responses carry Remaining 1, then 0. *)
Lemma onCMoveOrCGet_remaining_witness :
  exists results,
    SampleServer.onCMoveOrCGet (fun t : Tag => t) Samples.query Samples.newElement
      Samples.readFile Samples.store "1.2.840.10008.1.2"
      "1.2.840.10008.5.1.4.1.2.1.2" [Samples.patientName] = Ret results
    /\ List.length results = List.length Samples.storeMatches
    /\ (forall i r, nth_error results i = Some r ->
                    SampleServer.Remaining r
                    = Z.of_nat (List.length Samples.storeMatches) - Z.of_nat i - 1)
    /\ (forall i j ri rj, (i < j)%nat ->
                          nth_error results i = Some ri ->
                          nth_error results j = Some rj ->
                          SampleServer.Remaining rj < SampleServer.Remaining ri)
    /\ (exists r, nth_error results (List.length Samples.storeMatches - 1) = Some r
                  /\ SampleServer.Remaining r = 0).
Proof.
  apply (onCMoveOrCGet_remaining Tag (list Tag) (fun t : Tag => t) Samples.query
           Samples.newElement Samples.readFile Samples.store).
  - vm_compute. reflexivity.
  - cbn. lia.
Defined.

(** The responses of that call, written out. *)
Example onCMoveOrCGet_two_matches :
  option_map (map SampleServer.Remaining)
    (match SampleServer.onCMoveOrCGet (fun t : Tag => t) Samples.query Samples.newElement
             Samples.readFile Samples.store "1.2.840.10008.1.2"
             "1.2.840.10008.5.1.4.1.2.1.2" [Samples.patientName] with
     | Ret results => Some results
     | Panic _ => None
     end)
  = Some [1; 0].
Proof. reflexivity. Qed.

(** * Further properties of the command codec *)

Lemma Tag_eqb_neq (a b : Tag) : a <> b -> Tag_eqb a b = false.
Proof.
  intros H. destruct (Tag_eqb a b) eqn:E; [|reflexivity].
  apply Tag_eqb_eq in E. contradiction.
Qed.

(** As [each_call_result], reducing the calls whose result is known. *)
Ltac step_calls :=
  repeat (cbn;
          match goal with
          | |- context [let '(_, _) := ?c in _] => destruct c as [? [?|]]
          end).

Section CodecEdges.

Context {L : Library}.

(** X1: [findElementWithTag] returns the first element that carries the tag;
    elements behind it, with the same tag or not, do not matter. *)
Theorem findElementWithTag_first pre e post tag :
  (forall x, In x pre -> ElementTag x <> tag) ->
  ElementTag e = tag ->
  findElementWithTag (pre ++ e :: post) tag = inl e.
Proof.
  intros Hpre He. induction pre as [|x pre IH]; cbn.
  - rewrite He, Tag_eqb_refl. reflexivity.
  - rewrite Tag_eqb_neq by (apply Hpre; left; reflexivity).
    apply IH. intros y Hy. apply Hpre. right. exact Hy.
Qed.

Lemma findElementWithTag_none elems tag :
  (forall e, In e elems -> ElementTag e <> tag) ->
  findElementWithTag elems tag = inr (ElementNotFound tag).
Proof.
  induction elems as [|x rest IH]; intros H; cbn; [reflexivity|].
  rewrite Tag_eqb_neq by (apply H; left; reflexivity).
  apply IH. intros e He. apply H. right. exact He.
Qed.

(** X2: the lookup fails, with the error that names the tag, exactly when no
    element of the list carries the tag. *)
Theorem findElementWithTag_fails_iff elems tag :
  (exists err, findElementWithTag elems tag = inr err)
  <-> (forall e, In e elems -> ElementTag e <> tag).
Proof.
  split.
  - intros [err H] e He Htag.
    destruct (in_split _ _ He) as (pre & post & ->).
    revert H. induction pre as [|x pre IH]; cbn.
    + rewrite Htag, Tag_eqb_refl. discriminate.
    + destruct (Tag_eqb (ElementTag x) tag); [discriminate|].
      apply IH. apply in_or_app. right. left. reflexivity.
  - intros H. exists (ElementNotFound tag). apply findElementWithTag_none. exact H.
Qed.

(** Taking the elements of some tags out of a list changes the lookup of
    these tags only. *)
Lemma findElementWithTag_filter_other (drop : Tag -> bool) elems tag :
  drop tag = false ->
  findElementWithTag (filter (fun e => negb (drop (ElementTag e))) elems) tag
  = findElementWithTag elems tag.
Proof.
  intros Hkeep. induction elems as [|x rest IH]; cbn; [reflexivity|].
  destruct (Tag_eqb (ElementTag x) tag) eqn:E.
  - assert (D : drop (ElementTag x) = false)
      by (rewrite (proj1 (Tag_eqb_eq _ _) E); exact Hkeep).
    rewrite D. cbn. rewrite E. reflexivity.
  - destruct (drop (ElementTag x)); cbn; [exact IH|]. rewrite E. exact IH.
Qed.

Lemma findElementWithTag_filter_dropped (drop : Tag -> bool) elems tag :
  drop tag = true ->
  findElementWithTag (filter (fun e => negb (drop (ElementTag e))) elems) tag
  = inr (ElementNotFound tag).
Proof.
  intros Hdrop. apply findElementWithTag_none.
  intros e He Htag. apply filter_In in He. destruct He as [_ He].
  rewrite Htag, Hdrop in He. discriminate.
Qed.

(** X3: a C-STORE-RQ command that lacks one of the five required elements
    does not decode: [decodeC_STORE_RQ] returns an error and no request. *)
Theorem decodeC_STORE_RQ_missing_required elems t :
  In t requiredOfC_STORE_RQ ->
  (forall e, In e elems -> ElementTag e <> t) ->
  exists err, decodeC_STORE_RQ elems = (None, Some err).
Proof.
  intros Hin Hmiss. apply findElementWithTag_none in Hmiss.
  unfold requiredOfC_STORE_RQ, In in Hin.
  unfold decodeC_STORE_RQ, getStringFromElements, getUInt16FromElements.
  destruct Hin as [<-|[<-|[<-|[<-|[<-|[]]]]]]; rewrite Hmiss; step_calls; eauto.
Qed.

(** X4: a C-STORE-RSP command that lacks AffectedSOPClassUID,
    MessageIDBeingRespondedTo, Status or CommandDataSetType does not decode:
    [decodeC_STORE_RSP] returns an error and no response. *)
Theorem decodeC_STORE_RSP_missing_required elems t :
  In t requiredOfC_STORE_RSP ->
  (forall e, In e elems -> ElementTag e <> t) ->
  exists err, decodeC_STORE_RSP elems = (None, Some err).
Proof.
  intros Hin Hmiss. apply findElementWithTag_none in Hmiss.
  unfold requiredOfC_STORE_RSP, In in Hin.
  unfold decodeC_STORE_RSP, getStringFromElements, getUInt16FromElements.
  destruct Hin as [<-|[<-|[<-|[<-|[]]]]]; rewrite Hmiss; step_calls; eauto.
Qed.

(** X5: the two move originator elements are optional.  Taking them out of
    a command changes neither whether [decodeC_STORE_RQ] succeeds nor its
    error nor the five required fields; the request then has the empty
    title and message ID 0. *)
Theorem decodeC_STORE_RQ_without_move_originator elems :
  decodeC_STORE_RQ
    (filter (fun e => negb (isMoveOriginatorTag (ElementTag e))) elems)
  = match decodeC_STORE_RQ elems with
    | (Some v, err) => (Some (withoutMoveOriginator v), err)
    | r => r
    end.
Proof.
  unfold decodeC_STORE_RQ, getStringFromElements, getUInt16FromElements.
  rewrite (findElementWithTag_filter_other _ _ TagAffectedSOPClassUID) by reflexivity.
  rewrite (findElementWithTag_filter_other _ _ TagMessageID) by reflexivity.
  rewrite (findElementWithTag_filter_other _ _ TagPriority) by reflexivity.
  rewrite (findElementWithTag_filter_other _ _ TagCommandDataSetType) by reflexivity.
  rewrite (findElementWithTag_filter_other _ _ TagAffectedSOPInstanceUID) by reflexivity.
  rewrite (findElementWithTag_filter_dropped _ _ TagMoveOriginatorApplicationEntityTitle)
    by reflexivity.
  rewrite (findElementWithTag_filter_dropped _ _ TagMoveOriginatorMessageID)
    by reflexivity.
  each_call_result; reflexivity.
Qed.

(** X6: a command without a CommandField element, the empty command among
    them, is answered with the error of the missing element and the nil
    message; the decoder does not panic. *)
Theorem DecodeDIMSEMessage_missing_command_field io limit d elems :
  readAllElements (NewDecoder io limit) = (d, elems) ->
  DecoderFinish d = None ->
  (forall e, In e elems -> ElementTag e <> TagCommandField) ->
  DecodeDIMSEMessage io limit = Ret (NilMessage, Some (ElementNotFound TagCommandField)).
Proof.
  intros Hread Hfinish Hmiss. unfold DecodeDIMSEMessage, getUInt16FromElements.
  rewrite Hread, Hfinish, (findElementWithTag_none _ _ Hmiss). reflexivity.
Qed.

(** X7: the only panic of [DecodeDIMSEMessage] is the one for an unknown
    command: the elements were read without error and the CommandField was
    found and had a value other than 0x0001 and 0x8001. *)
Theorem DecodeDIMSEMessage_panic_reason io limit p :
  DecodeDIMSEMessage io limit = Panic p ->
  exists commandField,
    p = UnknownDIMSECommand commandField
    /\ commandField <> 1 /\ commandField <> 0x8001
    /\ DecoderFinish (fst (readAllElements (NewDecoder io limit))) = None
    /\ getUInt16FromElements (snd (readAllElements (NewDecoder io limit)))
         TagCommandField = (commandField, None).
Proof.
  unfold DecodeDIMSEMessage.
  destruct (readAllElements (NewDecoder io limit)) as [d elems]. cbn [fst snd].
  destruct (DecoderFinish d); [discriminate|].
  destruct (getUInt16FromElements elems TagCommandField) as [cf [e|]]; [discriminate|].
  destruct (Z.eqb_spec cf 1).
  { destruct (decodeC_STORE_RQ elems). discriminate. }
  destruct (Z.eqb_spec cf 0x8001).
  { destruct (decodeC_STORE_RSP elems). discriminate. }
  intros [= <-]. exists cf. auto.
Qed.

(** X8: [DecodeDIMSEMessage] returns a nil error exactly when it returns a
    message behind a non-nil pointer.  With an error the interface value is
    nil or holds a nil pointer; the nil interface never comes without an
    error. *)
Theorem DecodeDIMSEMessage_message_iff_no_error io limit cmd err :
  DecodeDIMSEMessage io limit = Ret (cmd, err) ->
  (err = None <-> (exists v, cmd = RQ (Some v)) \/ (exists v, cmd = RSP (Some v)))
  /\ (err <> None -> cmd = NilMessage \/ cmd = RQ None \/ cmd = RSP None).
Proof.
  intros H. apply DecodeDIMSEMessage_result in H.
  destruct H as [(-> & He)|[([-> | ->] & He)|([(v & ->)|(v & ->)] & ->)]];
    (split; [split|]); try tauto; try congruence;
    try (intros [(w & [=])|(w & [=])]); eauto.
Qed.

(** X9: the CommandField selects the decoder.  A request, or the nil
    pointer of a failed request, is what [decodeC_STORE_RQ] made of the
    elements of a stream whose CommandField is 1; a response likewise comes
    from [decodeC_STORE_RSP] and CommandField 0x8001. *)
Theorem DecodeDIMSEMessage_dispatch io limit cmd err :
  DecodeDIMSEMessage io limit = Ret (cmd, err) ->
  let elems := snd (readAllElements (NewDecoder io limit)) in
  match cmd with
  | RQ v => getUInt16FromElements elems TagCommandField = (1, None)
            /\ decodeC_STORE_RQ elems = (v, err)
  | RSP v => getUInt16FromElements elems TagCommandField = (0x8001, None)
             /\ decodeC_STORE_RSP elems = (v, err)
  | NilMessage => err <> None
  end.
Proof.
  unfold DecodeDIMSEMessage.
  destruct (readAllElements (NewDecoder io limit)) as [d elems]. cbn [snd].
  destruct (DecoderFinish d); [intros [= <- <-]; discriminate|].
  destruct (getUInt16FromElements elems TagCommandField) as [cf [e|]];
    [intros [= <- <-]; discriminate|].
  destruct (Z.eqb_spec cf 1) as [->|].
  { destruct (decodeC_STORE_RQ elems) as [v e]. intros [= <- <-]. auto. }
  destruct (Z.eqb_spec cf 0x8001) as [->|]; [|discriminate].
  destruct (decodeC_STORE_RSP elems) as [v e]. intros [= <- <-]. auto.
Qed.

(** X10: [encodeDIMSEMessage] panics for the nil message, for a nil pointer
    and for a C-STORE-RSP whose CommandDataSetType is not 0x0101, and for
    nothing else: every C-STORE-RQ is encoded or refused with an error. *)
Theorem encodeDIMSEMessage_panics_iff v :
  (exists p, encodeDIMSEMessage v = Panic p)
  <-> match v with
      | RQ (Some _) => False
      | RSP (Some rsp) => rspCommandDataSetType rsp <> 0x101
      | _ => True
      end.
Proof.
  unfold encodeDIMSEMessage. destruct v as [|[rq|]|[rsp|]]; cbn;
    try (split; [trivial | intros _; eexists; reflexivity]).
  - destruct (EncoderFinish (C_STORE_RQ_Encode rq NewEncoder)) as [bytes [e|]];
      split; intros H; try contradiction; destruct H as [p H]; discriminate.
  - unfold C_STORE_RSP_Encode.
    destruct (Z.eqb_spec (rspCommandDataSetType rsp) 0x101) as [E|E]; cbn.
    + match goal with
      | |- context [EncoderFinish ?e] => destruct (EncoderFinish e) as [bytes [err|]]
      end; split; intros H; try contradiction; destruct H as [p H]; discriminate.
    + split; [intros _; exact E | intros _; eexists; reflexivity].
Qed.

End CodecEdges.

(** * Further properties of the command assembler *)

Section AssemblerEdges.

Context {L : Library}.
Variable contextIDMap : Type.
Variable names : contextIDMap -> Z -> string * option error.

(** *** The completion flags *)

(** An iteration that gets past its assertion sets a flag that was clear,
    or leaves both flags alone. *)
Lemma addItem_flags a item a' :
  addItem a item = Ret a' ->
  Nat.b2n (readAllCommand a') = (Nat.b2n (readAllCommand a) + Nat.b2n (isLastOf true item))%nat
  /\ Nat.b2n (readAllData a') = (Nat.b2n (readAllData a) + Nat.b2n (isLastOf false item))%nat.
Proof.
  unfold addItem, isLastOf.
  destruct (contextID a =? 0); cbn;
    [|destruct (contextID a =? ContextID item); cbn; [|discriminate]];
    destruct (Command item), (Last item); cbn;
    destruct (readAllCommand a), (readAllData a); cbn;
    intros [= <-] || discriminate; cbn; auto.
Qed.

Lemma addItems_flags items : forall a a',
  addItems a items = Ret a' ->
  Nat.b2n (readAllCommand a')
  = (Nat.b2n (readAllCommand a) + List.length (filter (isLastOf true) items))%nat
  /\ Nat.b2n (readAllData a')
     = (Nat.b2n (readAllData a) + List.length (filter (isLastOf false) items))%nat.
Proof.
  induction items as [|item rest IH]; intros a a'; cbn.
  - intros [= <-]. lia.
  - destruct (addItem a item) as [a1|] eqn:E; cbn; [|discriminate].
    intros H. apply IH in H. apply addItem_flags in E.
    destruct (isLastOf true item), (isLastOf false item); cbn in *; lia.
Qed.

Lemma b2n_le_1 (b : bool) : (Nat.b2n b <= 1)%nat.
Proof. destruct b; cbn; lia. Qed.

(** X11: a second last fragment is refused by assertion.  Once the
    assembler has seen the last command fragment, a P-DATA-TF that holds
    another command PDV with the last bit makes [addPDataTF] panic, and
    likewise for data; this also holds after a call that returned a decode
    error, since that call keeps the flag. *)
Theorem addPDataTF_second_last_panics a pdu m item :
  In item (Items pdu) ->
  Last item = true ->
  (if Command item then readAllCommand a else readAllData a) = true ->
  exists p, addPDataTF names a pdu m = Panic p.
Proof.
  intros Hin Hlast Hflag. unfold addPDataTF.
  destruct (addItems a (Items pdu)) as [a1|p] eqn:E; cbn; [|eauto].
  exfalso. apply addItems_flags in E. destruct E as [Ec Ed].
  pose proof (b2n_le_1 (readAllCommand a1)). pose proof (b2n_le_1 (readAllData a1)).
  destruct (Command item) eqn:C.
  - assert (In item (filter (isLastOf true) (Items pdu))).
    { apply filter_In. split; [exact Hin|]. unfold isLastOf. rewrite C, Hlast. reflexivity. }
    destruct (filter (isLastOf true) (Items pdu)); [contradiction|].
    rewrite Hflag in Ec. cbn in Ec. lia.
  - assert (In item (filter (isLastOf false) (Items pdu))).
    { apply filter_In. split; [exact Hin|]. unfold isLastOf. rewrite C, Hlast. reflexivity. }
    destruct (filter (isLastOf false) (Items pdu)); [contradiction|].
    rewrite Hflag in Ed. cbn in Ed. lia.
Qed.

Lemma countLast_snoc isCommand pdus pdu :
  countLast isCommand (pdus ++ [pdu])
  = (countLast isCommand pdus + List.length (filter (isLastOf isCommand) (Items pdu)))%nat.
Proof.
  unfold countLast. rewrite flat_map_app. cbn. rewrite app_nil_r.
  rewrite filter_app, length_app. reflexivity.
Qed.

(** What a call that returns has done to the flags: the loop has counted
    the last bits of the PDU, and the rest of the call either leaves the
    flags alone or, when it hands a message up, has found the command
    complete and, for a message with data, the data too. *)
Lemma addPDataTF_flags a pdu m a' r :
  addPDataTF names a pdu m = Ret (a', r) ->
  exists a1,
    addItems a (Items pdu) = Ret a1
    /\ if isNilMessage (asCommand r)
       then readAllCommand a' = readAllCommand a1 /\ readAllData a' = readAllData a1
       else readAllCommand a1 = true
            /\ ((exists v, asCommand r = RQ (Some v)) -> readAllData a1 = true).
Proof.
  intros H. apply addPDataTF_ret in H.
  destruct H as (a1 & Hitems & [(Hall & -> & ->)|(Hall & a2 & err & Hdec & Hcase)]);
    exists a1; (split; [exact Hitems|]); [cbn; auto|].
  assert (Hsame : readAllCommand a2 = readAllCommand a1
                  /\ readAllData a2 = readAllData a1).
  { apply ensureDecoded_ret in Hdec.
    destruct Hdec as [(_ & -> & _)|(_ & cmd & _ & ->)]; cbn; auto. }
  destruct Hsame as [Hc2 Hd2].
  destruct err as [e|].
  - destruct Hcase as (-> & ->). cbn. auto.
  - destruct Hcase as (hd & Hhd & Hcase).
    destruct (hd && negb (readAllData a2)) eqn:Hwait.
    + destruct Hcase as (-> & ->). cbn. auto.
    + destruct Hcase as (-> & ->). cbn. apply HasData_ret in Hhd.
      destruct Hhd as [(v & Hv & _ & ->)|(v & Hv & _ & ->)]; rewrite Hv; cbn.
      * split; [exact Hall|]. intros _. cbn in Hwait.
        rewrite Hd2 in Hwait. destruct (readAllData a1); [reflexivity | discriminate].
      * split; [exact Hall|]. intros (w & [=]).
Qed.

(** After a run of calls from the empty assembler each flag tells whether
    the run held a PDV of its kind with the last bit, and there was at most
    one of each kind. *)
Lemma feed_flags pdus m : forall a,
  feed names emptyAssembler pdus m = Some a ->
  Nat.b2n (readAllCommand a) = countLast true pdus
  /\ Nat.b2n (readAllData a) = countLast false pdus.
Proof.
  induction pdus as [|pdu pdus IH] using rev_ind; intros a.
  - cbn. intros [= <-]. auto.
  - rewrite feed_app.
    destruct (feed names emptyAssembler pdus m) as [b|] eqn:Hb; [|discriminate].
    cbn. destruct (addPDataTF names b pdu m) as [[a' r]|] eqn:Hcall; [|discriminate].
    destruct (isNilMessage (asCommand r)) eqn:Hnil; [|discriminate].
    intros [= <-]. destruct (IH b eq_refl) as [Hc Hd].
    apply addPDataTF_flags in Hcall. destruct Hcall as (a1 & Hitems & Hflags).
    rewrite Hnil in Hflags. destruct Hflags as [-> ->].
    apply addItems_flags in Hitems. rewrite !countLast_snoc. lia.
Qed.

(** X12: a message is handed up only when the run of calls since the reset
    held exactly one command PDV with the last bit and at most one data PDV
    with it; for a C-STORE-RQ, exactly one data PDV with the last bit. *)
Theorem addPDataTF_emits_after_last pdus pdu m a a' r :
  feed names emptyAssembler pdus m = Some a ->
  addPDataTF names a pdu m = Ret (a', r) ->
  isNilMessage (asCommand r) = false ->
  countLast true (pdus ++ [pdu]) = 1%nat
  /\ (countLast false (pdus ++ [pdu]) <= 1)%nat
  /\ ((exists v, asCommand r = RQ (Some v)) -> countLast false (pdus ++ [pdu]) = 1%nat).
Proof.
  intros Hfeed Hcall Hcmd. apply feed_flags in Hfeed. destruct Hfeed as [Hc Hd].
  apply addPDataTF_flags in Hcall. destruct Hcall as (a1 & Hitems & Hflags).
  rewrite Hcmd in Hflags. destruct Hflags as [Hall Hdata].
  apply addItems_flags in Hitems. destruct Hitems as [Ec Ed].
  rewrite !countLast_snoc, <- Hc, <- Hd, <- Ec, <- Ed, Hall.
  split; [reflexivity|]. split; [apply b2n_le_1|].
  intros Hrq. rewrite (Hdata Hrq). reflexivity.
Qed.

(** *** The presentation context *)

Lemma addItems_context items : forall a a',
  contextID a <> 0 ->
  addItems a items = Ret a' ->
  contextID a' = contextID a
  /\ Forall (fun item => ContextID item = contextID a) items.
Proof.
  induction items as [|item rest IH]; intros a a' Ha; cbn.
  - intros [= <-]. auto.
  - destruct (addItem a item) as [a1|] eqn:E; cbn; [|discriminate].
    intros H. apply addItem_ret in E. destruct E as (Ec & Ei & _).
    destruct (Z.eqb_spec (contextID a) 0); [contradiction|].
    apply IH in H; [|congruence]. destruct H as [H1 H2].
    split; [congruence|]. constructor; [auto|].
    rewrite <- Ec. exact H2.
Qed.

(** X13: with a context adopted, a call that returns without handing a
    message up keeps the context, and every PDV it took was of that
    context. *)
Theorem addPDataTF_keeps_context a pdu m a' r :
  contextID a <> 0 ->
  addPDataTF names a pdu m = Ret (a', r) ->
  isNilMessage (asCommand r) = true ->
  contextID a' = contextID a
  /\ Forall (fun item => ContextID item = contextID a) (Items pdu).
Proof.
  intros Ha H Hnil. apply addPDataTF_ret in H.
  destruct H as (a1 & Hitems & Hcases).
  apply addItems_context in Hitems; [|exact Ha]. destruct Hitems as [Hc Hall].
  split; [|exact Hall].
  destruct Hcases as [(_ & -> & _)|(_ & a2 & err & Hdec & Hcase)]; [exact Hc|].
  assert (Hc2 : contextID a2 = contextID a1).
  { apply ensureDecoded_ret in Hdec.
    destruct Hdec as [(_ & -> & _)|(_ & cmd & _ & ->)]; reflexivity. }
  destruct err as [e|].
  - destruct Hcase as (-> & _). congruence.
  - destruct Hcase as (hd & Hhd & Hcase). destruct (hd && negb (readAllData a2)).
    + destruct Hcase as (-> & _). congruence.
    + destruct Hcase as (_ & ->). cbn in Hnil. apply HasData_ret in Hhd.
      destruct Hhd as [(v & Hv & _)|(v & Hv & _)]; rewrite Hv in Hnil; discriminate.
Qed.

(** X14: context 0 is never adopted.  An assembler without a context that
    takes a PDV of context 0 is still without a context, so the PDV after it
    is taken whatever its context: the values of both end up in the same
    buffers and the mixed context check does not fire. *)
Theorem addItems_context_zero_merges a first second :
  contextID a = 0 ->
  ContextID first = 0 ->
  Last first = false ->
  Last second = false ->
  exists a',
    addItems a [first; second] = Ret a'
    /\ contextID a' = ContextID second
    /\ commandBytes a'
       = commandBytes a ++ (if Command first then Value first else [])
         ++ (if Command second then Value second else [])
    /\ dataBytes a'
       = dataBytes a ++ (if Command first then [] else Value first)
         ++ (if Command second then [] else Value second).
Proof.
  intros Ha H0 L1 L2. cbn. unfold addItem.
  rewrite Ha, H0, L1, L2. cbn.
  destruct (Command first), (Command second); cbn; eexists;
    rewrite ?app_nil_r, <- ?app_assoc; repeat split.
Qed.

(** *** What a call returns *)

(** X15: a call that hands a message up returns no error, even when the
    context map does not know the context: the name is whatever
    [contextIDToAbstractSyntaxName] returned for the context of the PDVs, and
    the data bytes are those the assembler held followed by the data PDVs
    of this P-DATA-TF. *)
Theorem addPDataTF_emission_result a pdu m a' r :
  addPDataTF names a pdu m = Ret (a', r) ->
  isNilMessage (asCommand r) = false ->
  asErr r = None
  /\ exists a1,
       addItems a (Items pdu) = Ret a1
       /\ syntaxName r = fst (names m (contextID a1))
       /\ asDataBytes r
          = dataBytes a
            ++ flat_map (fun item => if Command item then [] else Value item) (Items pdu).
Proof.
  intros H Hcmd. apply addPDataTF_ret in H.
  destruct H as (a1 & Hitems & [(_ & _ & ->)|(_ & a2 & err & Hdec & Hcase)]);
    [discriminate|].
  assert (Hsame : contextID a2 = contextID a1 /\ dataBytes a2 = dataBytes a1).
  { apply ensureDecoded_ret in Hdec.
    destruct Hdec as [(_ & -> & _)|(_ & cmd & _ & ->)]; cbn; auto. }
  destruct Hsame as [Hc Hd].
  destruct err as [e|]; [destruct Hcase as (_ & ->); discriminate|].
  destruct Hcase as (hd & _ & Hcase). destruct (hd && negb (readAllData a2)).
  - destruct Hcase as (_ & ->). discriminate.
  - destruct Hcase as (_ & ->). cbn. split; [reflexivity|].
    exists a1. split; [exact Hitems|]. rewrite Hc, Hd.
    apply addItems_ret in Hitems. destruct Hitems as (_ & -> & _). auto.
Qed.

(** X16: after a failed decode that stored a nil pointer in [command], the
    assembler is of no more use: whatever P-DATA-TF comes next, the call
    panics, in the loop or at [HasData]. *)
Theorem addPDataTF_after_nil_pointer_panics a pdu m :
  readAllCommand a = true ->
  command a = RQ None \/ command a = RSP None ->
  exists p, addPDataTF names a pdu m = Panic p.
Proof.
  intros Hall Hcmd. unfold addPDataTF.
  destruct (addItems a (Items pdu)) as [a1|p] eqn:E; cbn; [|eauto].
  pose proof (addItems_flags _ _ _ E) as [Hc _].
  apply addItems_ret in E. destruct E as (_ & _ & Hm).
  assert (Hall1 : readAllCommand a1 = true).
  { rewrite Hall in Hc. destruct (readAllCommand a1); [reflexivity | cbn in Hc; lia]. }
  rewrite Hall1. cbn. unfold ensureDecoded. rewrite Hm.
  destruct Hcmd as [E|E]; rewrite E; cbn; rewrite Hm, E; cbn; eauto.
Qed.

Lemma addItems_app xs : forall a ys,
  addItems a (xs ++ ys) = (a1 <- addItems a xs ;; addItems a1 ys).
Proof.
  induction xs as [|x xs IH]; intros a ys; cbn; [reflexivity|].
  destruct (addItem a x) as [a1|]; cbn; [apply IH | reflexivity].
Qed.

(** X17: where a P-DATA-TF is cut does not matter as long as the command is
    incomplete at the cut: if the call for the PDVs [xs] returns without a
    message and with [readAllCommand] still clear, the call for [ys] that
    follows does what one call for [xs ++ ys] would have done. *)
Theorem addPDataTF_split a xs ys m a1 r1 :
  addPDataTF names a (mkPDataTF xs) m = Ret (a1, r1) ->
  isNilMessage (asCommand r1) = true ->
  readAllCommand a1 = false ->
  addPDataTF names a (mkPDataTF (xs ++ ys)) m = addPDataTF names a1 (mkPDataTF ys) m.
Proof.
  intros H Hquiet Hclear. apply addPDataTF_ret in H. cbn [Items] in H.
  destruct H as (b & Hitems & [(_ & -> & _)|(Hall & a2 & err & Hdec & Hcase)]).
  - unfold addPDataTF. cbn [Items]. rewrite addItems_app, Hitems. reflexivity.
  - exfalso.
    assert (Hc2 : readAllCommand a2 = true).
    { apply ensureDecoded_ret in Hdec.
      destruct Hdec as [(_ & -> & _)|(_ & cmd & _ & ->)]; exact Hall. }
    destruct err as [e|].
    + destruct Hcase as (-> & _). congruence.
    + destruct Hcase as (hd & Hhd & Hcase). destruct (hd && negb (readAllData a2)).
      * destruct Hcase as (-> & _). congruence.
      * destruct Hcase as (_ & ->). cbn in Hquiet. apply HasData_ret in Hhd.
        destruct Hhd as [(v & Hv & _)|(v & Hv & _)]; rewrite Hv in Hquiet; discriminate.
Qed.

End AssemblerEdges.

(** * Further properties of the sample server *)

Section ServerEdges.

Import SampleServer.

Variables Element DataSet : Type.
Variable ElementTag : Element -> Tag.
Variable Query : DataSet -> Element -> bool * option Element * option error.
Variable NewElement : Tag -> Element + error.
Variable ReadDataSetFromFile : string -> option DataSet * option error.

(** A data set that matches contributes one element per filter. *)
Lemma matchFilters_length ds filters : forall acc matched,
  matchFilters ElementTag Query NewElement ds filters acc = AllMatched _ matched ->
  List.length matched = (List.length acc + List.length filters)%nat.
Proof.
  induction filters as [|f rest IH]; intros acc matched; cbn.
  - intros [= <-]. lia.
  - destruct (Query ds f) as [[ok elem] [e|]]; [discriminate|].
    destruct ok; cbn; [|discriminate].
    destruct elem as [el|].
    + intros H. apply IH in H. rewrite length_app in H. cbn in H. lia.
    + destruct (NewElement (ElementTag f)) as [el|e]; [|discriminate].
      intros H. apply IH in H. rewrite length_app in H. cbn in H. lia.
Qed.

Lemma findMatchingLoop_shape entries filters : forall acc matches err,
  findMatchingLoop _ _ ElementTag Query NewElement entries filters acc = Ret (matches, err) ->
  exists found,
    matches = acc ++ found
    /\ (List.length found <= List.length entries)%nat
    /\ Forall (fun m => List.length (elems m) = List.length filters
                        /\ elems m <> []
                        /\ In (path m) (map fst entries)) found.
Proof.
  induction entries as [|[p ds] rest IH]; intros acc matches err; cbn.
  - intros [= <- <-]. exists []. rewrite app_nil_r. auto.
  - destruct (matchFilters ElementTag Query NewElement ds filters []) as [matched| |e] eqn:E.
    + destruct (Nat.eqb_spec (List.length matched) 0) as [Z|NZ]; [discriminate|].
      intros H. apply IH in H. destruct H as (found & -> & Hlen & Hall).
      exists (mkMatch p matched :: found). rewrite <- app_assoc. cbn.
      split; [reflexivity|]. split; [lia|]. constructor.
      * cbn. apply matchFilters_length in E. cbn in E.
        split; [exact E|]. split; [destruct matched; [contradiction | discriminate] | auto].
      * eapply Forall_impl; [|exact Hall]. cbn. intros m (H1 & H2 & H3). auto.
    + intros H. apply IH in H. destruct H as (found & -> & Hlen & Hall).
      exists found. split; [reflexivity|]. split; [lia|].
      eapply Forall_impl; [|exact Hall]. cbn. intros m (H1 & H2 & H3). auto.
    + intros [= <- <-]. exists []. rewrite app_nil_r.
      split; [reflexivity|]. split; [cbn; lia | constructor].
Qed.

(** X19: whatever [findMatchingFiles] returns, with or without an error,
    there are no more matches than data sets, every match names a file of
    the store and carries one element per filter, and so at least one. *)
Theorem findMatchingFiles_matches_shape ss filters matches err :
  findMatchingFiles ElementTag Query NewElement ss filters = Ret (matches, err) ->
  (List.length matches <= List.length (datasets ss))%nat
  /\ Forall (fun m => List.length (elems m) = List.length filters
                      /\ elems m <> []
                      /\ In (path m) (map fst (datasets ss))) matches.
Proof.
  intros H. apply findMatchingLoop_shape in H.
  destruct H as (found & -> & Hlen & Hall). cbn. auto.
Qed.

(** X20: a request without filters makes [findMatchingFiles] panic as soon
    as the store holds a file: every data set matches vacuously and the
    match without elements is what the function panics with. *)
Theorem findMatchingFiles_no_filters_panics ss p ds rest :
  datasets ss = (p, ds) :: rest ->
  findMatchingFiles ElementTag Query NewElement ss [] = Panic (PanicValue p).
Proof. intros H. unfold findMatchingFiles. rewrite H. reflexivity. Qed.

(** Whether every filter matches a data set. *)
Lemma matchFilters_selects ds filters :
  (forall f, snd (Query ds f) = None) ->
  (forall t, exists e, NewElement t = inl e) ->
  forall acc,
    if forallb (fun f => fst (fst (Query ds f))) filters
    then exists matched, matchFilters ElementTag Query NewElement ds filters acc
                         = AllMatched _ matched
    else matchFilters ElementTag Query NewElement ds filters acc = Missed _.
Proof.
  intros Hq Hn. induction filters as [|f rest IH]; intros acc; cbn; [eauto|].
  specialize (Hq f). destruct (Query ds f) as [[ok elem] err]. cbn in Hq. subst err.
  cbn. destruct ok; cbn; [|reflexivity].
  destruct elem as [el|]; [apply IH|].
  destruct (Hn (ElementTag f)) as [el ->]. apply IH.
Qed.

Lemma findMatchingLoop_selects filters :
  filters <> [] ->
  (forall ds f, snd (Query ds f) = None) ->
  (forall t, exists e, NewElement t = inl e) ->
  forall entries acc,
  exists found,
    findMatchingLoop _ _ ElementTag Query NewElement entries filters acc
    = Ret (acc ++ found, None)
    /\ map path found
       = map fst (filter (fun entry => forallb (fun f => fst (fst (Query (snd entry) f))) filters)
                    entries).
Proof.
  intros Hne Hq Hn. induction entries as [|[p ds] rest IH]; intros acc; cbn.
  - exists []. rewrite app_nil_r. auto.
  - pose proof (matchFilters_selects ds filters (Hq ds) Hn []) as H.
    destruct (forallb (fun f => fst (fst (Query ds f))) filters).
    + destruct H as [matched H]. rewrite H.
      apply matchFilters_length in H. cbn in H.
      destruct (Nat.eqb_spec (List.length matched) 0) as [Z|NZ].
      { destruct filters; [contradiction | cbn in H; lia]. }
      destruct (IH (acc ++ [mkMatch p matched])) as (found & -> & Hpaths).
      exists (mkMatch p matched :: found). rewrite <- app_assoc. cbn.
      rewrite Hpaths. auto.
    + rewrite H. apply IH.
Qed.

(** X21: when no query fails, no element fails to be made and there is at
    least one filter, [findMatchingFiles] returns without error the files
    whose data set every filter matches, in the order the store is
    visited. *)
Theorem findMatchingFiles_selects ss filters :
  filters <> [] ->
  (forall ds f, snd (Query ds f) = None) ->
  (forall t, exists e, NewElement t = inl e) ->
  exists matches,
    findMatchingFiles ElementTag Query NewElement ss filters = Ret (matches, None)
    /\ map path matches
       = map fst (filter (fun entry => forallb (fun f => fst (fst (Query (snd entry) f))) filters)
                    (datasets ss)).
Proof.
  intros Hne Hq Hn.
  destruct (findMatchingLoop_selects filters Hne Hq Hn (datasets ss) []) as (found & H & Hp).
  exists found. split; [exact H | exact Hp].
Qed.

Lemma moveResponses_content (matches : list (filterMatch Element)) : forall n i,
  map Path (moveResponses ReadDataSetFromFile n i matches) = map path matches
  /\ Forall (fun r =>
               Err r = snd (ReadDataSetFromFile (Path r))
               /\ ResultDataSet r
                  = match snd (ReadDataSetFromFile (Path r)) with
                    | Some _ => None
                    | None => fst (ReadDataSetFromFile (Path r))
                    end)
       (moveResponses ReadDataSetFromFile n i matches).
Proof.
  induction matches as [|x rest IH]; intros n i; cbn; [auto|].
  destruct (IH n (i + 1)) as [Hp Hall].
  destruct (ReadDataSetFromFile (path x)) as [ds [e|]] eqn:E; cbn; rewrite Hp;
    (split; [reflexivity|]); constructor; auto; cbn; rewrite E; auto.
Qed.

(** X22: the responses of a C-MOVE or C-GET name the matched files in the
    order of the matches.  A file that cannot be read does not end the
    stream: its response carries the error of the read and no data set, and
    the responses for the other files carry their data sets. *)
Theorem onCMoveOrCGet_responses ss transferSyntaxUID sopClassUID filters matches :
  findMatchingFiles ElementTag Query NewElement ss filters = Ret (matches, None) ->
  exists results,
    onCMoveOrCGet ElementTag Query NewElement ReadDataSetFromFile
      ss transferSyntaxUID sopClassUID filters = Ret results
    /\ map Path results = map path matches
    /\ Forall (fun r =>
                 Err r = snd (ReadDataSetFromFile (Path r))
                 /\ ResultDataSet r
                    = match snd (ReadDataSetFromFile (Path r)) with
                      | Some _ => None
                      | None => fst (ReadDataSetFromFile (Path r))
                      end) results.
Proof.
  intros H. unfold onCMoveOrCGet. rewrite H. cbn.
  eexists. split; [reflexivity|]. apply moveResponses_content.
Qed.

(** X23: C-FIND and C-MOVE answer the same request alike.  Both panic when
    [findMatchingFiles] panics; when it fails, both send the error alone,
    dropping the matches found before it; otherwise both send one result
    per match, in order, C-FIND the elements of the match without error. *)
Theorem onCFind_onCMoveOrCGet_agree ss transferSyntaxUID sopClassUID filters :
  match findMatchingFiles ElementTag Query NewElement ss filters with
  | Panic p =>
      onCFind ElementTag Query NewElement ss transferSyntaxUID sopClassUID filters
      = Panic p
      /\ onCMoveOrCGet ElementTag Query NewElement ReadDataSetFromFile
           ss transferSyntaxUID sopClassUID filters = Panic p
  | Ret (_, Some e) =>
      onCFind ElementTag Query NewElement ss transferSyntaxUID sopClassUID filters
      = Ret [mkFindResult [] (Some e)]
      /\ onCMoveOrCGet ElementTag Query NewElement ReadDataSetFromFile
           ss transferSyntaxUID sopClassUID filters
         = Ret [mkResult 0 EmptyString None (Some e)]
  | Ret (matches, None) =>
      exists found moved,
        onCFind ElementTag Query NewElement ss transferSyntaxUID sopClassUID filters
        = Ret found
        /\ onCMoveOrCGet ElementTag Query NewElement ReadDataSetFromFile
             ss transferSyntaxUID sopClassUID filters = Ret moved
        /\ List.length found = List.length matches
        /\ List.length moved = List.length matches
        /\ map FindElements found = map elems matches
        /\ Forall (fun f => FindErr f = None) found
  end.
Proof.
  unfold onCFind, onCMoveOrCGet.
  destruct (findMatchingFiles ElementTag Query NewElement ss filters)
    as [[matches [e|]]|p]; cbn; auto.
  eexists. eexists. split; [reflexivity|]. split; [reflexivity|].
  rewrite length_map, moveResponses_length, map_map. cbn.
  repeat split; auto. apply Forall_map. apply Forall_forall. reflexivity.
Qed.

End ServerEdges.

(** ** The flags *)

Section FlagFacts.

Import SampleServer.

Lemma contains_app c (a b : string) :
  contains c (a ++ b)%string = contains c a || contains c b.
Proof.
  induction a as [|x a IH]; cbn; [reflexivity|].
  rewrite IH. apply orb_assoc.
Qed.

(** X24: [canonicalizeHostPort] returns an address with a colon in it, and
    applying it twice is applying it once. *)
Theorem canonicalizeHostPort_idempotent addr :
  contains colon (canonicalizeHostPort addr) = true
  /\ canonicalizeHostPort (canonicalizeHostPort addr) = canonicalizeHostPort addr.
Proof.
  unfold canonicalizeHostPort.
  destruct (contains colon addr) eqn:E; cbn.
  - rewrite E. auto.
  - auto.
Qed.

Lemma splitComma_not_nil s : splitComma s <> [].
Proof.
  destruct s as [|c s]; cbn; [discriminate|].
  destruct (Ascii.eqb c comma); [discriminate|].
  destruct (splitComma s); discriminate.
Qed.

(** Splitting at a comma splits the list of pieces. *)
Lemma splitComma_app (a b : string) :
  splitComma (a ++ String comma b)%string = splitComma a ++ splitComma b.
Proof.
  induction a as [|c a IH]; cbn.
  - reflexivity.
  - destruct (Ascii.eqb c comma); [rewrite IH; reflexivity|].
    rewrite IH. pose proof (splitComma_not_nil a).
    destruct (splitComma a); [contradiction | reflexivity].
Qed.

Lemma splitComma_single s : contains comma s = false -> splitComma s = [s].
Proof.
  induction s as [|c s IH]; cbn; [reflexivity|].
  destruct (Ascii.eqb c comma); cbn; [discriminate|].
  intros H. rewrite (IH H). reflexivity.
Qed.

Lemma breakColon_app (ae hostPort : string) :
  contains colon ae = false ->
  breakColon (ae ++ String colon hostPort)%string = Some (ae, hostPort).
Proof.
  induction ae as [|c ae IH]; cbn.
  - reflexivity.
  - destruct (Ascii.eqb c colon); cbn; [discriminate|].
    intros H. rewrite (IH H). reflexivity.
Qed.

Lemma parseAESpecs_app xs : forall ys m,
  parseAESpecs (xs ++ ys) m
  = match parseAESpecs xs m with
    | (m', None) => parseAESpecs ys m'
    | failed => failed
    end.
Proof.
  induction xs as [|x xs IH]; intros ys m; cbn; [reflexivity|].
  destruct (String.eqb x EmptyString); [apply IH|].
  destruct (findAESubmatch x) as [[ae hp]|]; [apply IH | reflexivity].
Qed.

Lemma parseAESpecs_error_iff pieces : forall m,
  snd (parseAESpecs pieces m) = None
  <-> Forall (fun str => str = EmptyString \/ findAESubmatch str <> None) pieces.
Proof.
  induction pieces as [|x rest IH]; intros m; cbn.
  - split; [constructor | reflexivity].
  - destruct (String.eqb_spec x EmptyString) as [->|Hx].
    + rewrite IH. split; [intros H; constructor; auto | intros H; inversion H; auto].
    + destruct (findAESubmatch x) as [[ae hp]|] eqn:E.
      * rewrite IH. split; [intros H; constructor; [right; congruence | auto]
                           | intros H; inversion H; auto].
      * cbn. split; [discriminate|]. intros H. inversion H as [|? ? [?|?] ?]; subst;
          congruence.
Qed.

(** X25: [parseRemoteAEFlag] returns no error exactly when every piece of
    the flag between commas is empty or has the form title:address, with a
    title that is not empty and an address that is not empty and holds no
    line feed. *)
Theorem parseRemoteAEFlag_error_iff flag :
  snd (parseRemoteAEFlag flag) = None
  <-> Forall (fun str => str = EmptyString \/ findAESubmatch str <> None)
        (splitComma flag).
Proof. apply parseAESpecs_error_iff. Qed.

Lemma findAESubmatch_entry (ae hostPort : string) :
  ae <> EmptyString -> contains colon ae = false ->
  hostPort <> EmptyString -> contains newline hostPort = false ->
  findAESubmatch (ae ++ String colon hostPort)%string = Some (ae, hostPort).
Proof.
  intros Hae Hcolon Hhp Hnl. unfold findAESubmatch.
  rewrite breakColon_app by exact Hcolon.
  destruct (String.eqb_spec ae EmptyString); [contradiction|].
  destruct (String.eqb_spec hostPort EmptyString); [contradiction|].
  rewrite Hnl. reflexivity.
Qed.

(** X26: an entry added at the end of a flag that parses is added to the
    map and wins over an earlier entry of the same title: looking the title
    up gives the new address, whose colons belong to it, and every other
    title is found as before. *)
Theorem parseRemoteAEFlag_append flag m (ae hostPort : string) :
  parseRemoteAEFlag flag = (m, None) ->
  ae <> EmptyString -> contains colon ae = false -> contains comma ae = false ->
  hostPort <> EmptyString -> contains newline hostPort = false ->
  contains comma hostPort = false ->
  exists m',
    parseRemoteAEFlag (flag ++ String comma (ae ++ String colon hostPort))%string
    = (m', None)
    /\ m' ae = Some hostPort
    /\ forall title, title <> ae -> m' title = m title.
Proof.
  intros Hflag Hae Hcolon Hcomma Hhp Hnl Hcomma'.
  exists (setAE m ae hostPort). unfold parseRemoteAEFlag in *.
  rewrite splitComma_app, parseAESpecs_app, Hflag.
  rewrite splitComma_single
    by (rewrite contains_app; cbn; rewrite Hcomma, Hcomma'; reflexivity).
  cbn. destruct ae as [|c ae]; [contradiction|]. cbn [String.append String.eqb].
  change (String c (ae ++ String colon hostPort))%string
    with (String c ae ++ String colon hostPort)%string.
  rewrite findAESubmatch_entry by assumption.
  split; [reflexivity|]. unfold setAE. split.
  - rewrite String.eqb_refl. reflexivity.
  - intros title Ht. destruct (String.eqb_spec title (String c ae)); [contradiction|].
    reflexivity.
Qed.

(** X27: a piece that is not of the form title:address ends the parse: the
    error names the piece, the map holds the entries before it, and what
    follows the piece in the flag is not looked at. *)
Theorem parseRemoteAEFlag_stops_at_bad_piece flag m (bad rest : string) :
  parseRemoteAEFlag flag = (m, None) ->
  bad <> EmptyString -> contains comma bad = false ->
  findAESubmatch bad = None ->
  parseRemoteAEFlag (flag ++ String comma (bad ++ String comma rest))%string
  = (m, Some (FailedToParseAESpec bad)).
Proof.
  intros Hflag Hbad Hcomma Hno. unfold parseRemoteAEFlag in *.
  rewrite splitComma_app, parseAESpecs_app, Hflag, splitComma_app.
  rewrite (splitComma_single bad Hcomma). cbn.
  destruct (String.eqb_spec bad EmptyString); [contradiction|].
  rewrite Hno. reflexivity.
Qed.

End FlagFacts.

(** ** Elements the decoder does not look up *)

Section IgnoredElements.

Context {L : Library}.

(** X28: [decodeC_STORE_RQ] looks at seven tags and at nothing else.
    Elements of any other tag, the CommandGroupLength and the CommandField
    among them, can be taken out of the command without changing the
    result: the group length is not checked against the command. *)
Theorem decodeC_STORE_RQ_ignores_other_elements (drop : Tag -> bool) elems :
  (forall t, In t (requiredOfC_STORE_RQ
                     ++ [TagMoveOriginatorApplicationEntityTitle;
                         TagMoveOriginatorMessageID]) -> drop t = false) ->
  decodeC_STORE_RQ (filter (fun e => negb (drop (ElementTag e))) elems)
  = decodeC_STORE_RQ elems.
Proof.
  intros Hkeep.
  unfold decodeC_STORE_RQ, getStringFromElements, getUInt16FromElements.
  rewrite (findElementWithTag_filter_other drop elems TagAffectedSOPClassUID)
    by (apply Hkeep; cbn; auto 10).
  rewrite (findElementWithTag_filter_other drop elems TagMessageID)
    by (apply Hkeep; cbn; auto 10).
  rewrite (findElementWithTag_filter_other drop elems TagPriority)
    by (apply Hkeep; cbn; auto 10).
  rewrite (findElementWithTag_filter_other drop elems TagCommandDataSetType)
    by (apply Hkeep; cbn; auto 10).
  rewrite (findElementWithTag_filter_other drop elems TagAffectedSOPInstanceUID)
    by (apply Hkeep; cbn; auto 10).
  rewrite (findElementWithTag_filter_other drop elems TagMoveOriginatorApplicationEntityTitle)
    by (apply Hkeep; cbn; auto 10).
  rewrite (findElementWithTag_filter_other drop elems TagMoveOriginatorMessageID)
    by (apply Hkeep; cbn; auto 10).
  reflexivity.
Qed.

End IgnoredElements.

(** ** Calls that return an error *)

Section AssemblerErrors.

Context {L : Library}.
Variable contextIDMap : Type.
Variable names : contextIDMap -> Z -> string * option error.

(** X18: the only error [addPDataTF] returns is the one of the decoder, and
    it returns it without a message and without resetting.  The assembler
    had no command before the call; after it the buffers hold what they held
    plus the values of this P-DATA-TF, the command is marked complete, and
    [command] holds what the decoder returned for the command bytes together
    with the error. *)
Theorem addPDataTF_error_from_decoder a pdu m a' r e :
  addPDataTF names a pdu m = Ret (a', r) ->
  asErr r = Some e ->
  r = nothing (Some e)
  /\ command a = NilMessage
  /\ readAllCommand a' = true
  /\ commandBytes a'
     = commandBytes a
       ++ flat_map (fun item => if Command item then Value item else []) (Items pdu)
  /\ dataBytes a'
     = dataBytes a
       ++ flat_map (fun item => if Command item then [] else Value item) (Items pdu)
  /\ DecodeDIMSEMessage (commandBytes a') (Z.of_nat (List.length (commandBytes a')))
     = Ret (command a', Some e).
Proof.
  intros H He.
  destruct (addPDataTF_error_keeps_state _ _ _ _ _ _ _ _ H He)
    as (a1 & cmd & Hitems & Hall & Hnil & Hdec & -> & ->).
  apply addItems_ret in Hitems. destruct Hitems as (Hc & Hd & Hm).
  cbn. rewrite <- Hc, <- Hd, <- Hm. auto 10.
Qed.

End AssemblerErrors.

(** * The further properties at concrete inputs *)

(** X1, witness: two CommandField elements behind another element. *)
Lemma findElementWithTag_first_witness :
  findElementWithTag (L := ImplicitLE.codec)
    ([ImplicitLE.mkElem TagAffectedSOPClassUID [VString "1.2.840.10008.1.1"]]
       ++ ImplicitLE.mkElem TagCommandField [VUInt16 1]
       :: [ImplicitLE.mkElem TagCommandField [VUInt16 0x8001]])
    TagCommandField
  = inl (ImplicitLE.mkElem TagCommandField [VUInt16 1]).
Proof.
  apply (findElementWithTag_first (L := ImplicitLE.codec)).
  - intros x [<-|[]]. cbn. discriminate.
  - reflexivity.
Defined.

(** X3, witness: a command that holds the CommandField only lacks the
    MessageID. *)
Lemma decodeC_STORE_RQ_missing_required_witness :
  exists err,
    decodeC_STORE_RQ (L := ImplicitLE.codec)
      [ImplicitLE.mkElem TagCommandField [VUInt16 1]] = (None, Some err).
Proof.
  apply (decodeC_STORE_RQ_missing_required (L := ImplicitLE.codec) _ TagMessageID).
  - cbn. auto.
  - intros e [<-|[]]. cbn. discriminate.
Defined.

(** X4, witness: a response command without Status. *)
Lemma decodeC_STORE_RSP_missing_required_witness :
  exists err,
    decodeC_STORE_RSP (L := ImplicitLE.codec)
      [ImplicitLE.mkElem TagCommandField [VUInt16 0x8001];
       ImplicitLE.mkElem TagAffectedSOPClassUID [VString "1.2.840.10008.1.1"]]
    = (None, Some err).
Proof.
  apply (decodeC_STORE_RSP_missing_required (L := ImplicitLE.codec) _ TagStatus).
  - cbn. auto.
  - intros e [<-|[<-|[]]]; cbn; discriminate.
Defined.

(** X6, witness: the empty command. *)
Lemma DecodeDIMSEMessage_missing_command_field_witness :
  DecodeDIMSEMessage (L := ImplicitLE.codec) [] 0
  = Ret (NilMessage, Some (ElementNotFound TagCommandField)).
Proof.
  apply (DecodeDIMSEMessage_missing_command_field (L := ImplicitLE.codec) [] 0
           (ImplicitLE.mkDecoder [] None) []).
  - reflexivity.
  - reflexivity.
  - intros e [].
Defined.

(** X7, witness: the panic for the command of a C-FIND-RQ. *)
Lemma DecodeDIMSEMessage_panic_reason_witness :
  exists commandField,
    UnknownDIMSECommand 0x20 = UnknownDIMSECommand commandField
    /\ commandField <> 1 /\ commandField <> 0x8001
    /\ @DecoderFinish ImplicitLE.codec
         (fst (readAllElements
                 (NewDecoder Samples.findRQ (Samples.size Samples.findRQ)))) = None
    /\ getUInt16FromElements (L := ImplicitLE.codec)
         (snd (readAllElements
                 (NewDecoder Samples.findRQ (Samples.size Samples.findRQ))))
         TagCommandField = (commandField, None).
Proof.
  apply (DecodeDIMSEMessage_panic_reason (L := ImplicitLE.codec)).
  vm_compute. reflexivity.
Defined.

(** X8, witness: the failed decode of a command that holds the CommandField
    only returns a nil pointer together with its error. *)
Lemma DecodeDIMSEMessage_message_iff_no_error_witness :
  (Some (ElementNotFound TagAffectedSOPClassUID) = None
   <-> (exists v, RQ None = RQ (Some v)) \/ (exists v, RQ None = RSP (Some v)))
  /\ (Some (ElementNotFound TagAffectedSOPClassUID) <> None ->
      RQ None = NilMessage \/ RQ None = RQ None \/ RQ None = RSP None).
Proof.
  apply (DecodeDIMSEMessage_message_iff_no_error (L := ImplicitLE.codec)
           Samples.commandFieldOnly (Samples.size Samples.commandFieldOnly)).
  vm_compute. reflexivity.
Defined.

(** X9, witness: a response command. *)
Lemma DecodeDIMSEMessage_dispatch_witness :
  getUInt16FromElements (L := ImplicitLE.codec)
    (snd (readAllElements
            (NewDecoder Samples.rspWithoutInstance
               (Samples.size Samples.rspWithoutInstance))))
    TagCommandField = (0x8001, None)
  /\ decodeC_STORE_RSP (L := ImplicitLE.codec)
       (snd (readAllElements
               (NewDecoder Samples.rspWithoutInstance
                  (Samples.size Samples.rspWithoutInstance))))
     = (Some Samples.rspDecoded, None).
Proof.
  apply (DecodeDIMSEMessage_dispatch (L := ImplicitLE.codec)
           Samples.rspWithoutInstance (Samples.size Samples.rspWithoutInstance)
           (RSP (Some Samples.rspDecoded)) None).
  vm_compute. reflexivity.
Defined.

(** X11, witness: the command is sent again after its decode failed. *)
Lemma addPDataTF_second_last_panics_witness :
  exists p,
    addPDataTF (L := ImplicitLE.codec) Samples.contextNames
      Samples.afterFailedDecode Samples.pduCommandFieldOnly tt = Panic p.
Proof.
  apply (addPDataTF_second_last_panics (L := ImplicitLE.codec) unit Samples.contextNames
           Samples.afterFailedDecode Samples.pduCommandFieldOnly tt
           (Samples.commandPDV 1 true Samples.commandFieldOnly)).
  - left. reflexivity.
  - reflexivity.
  - reflexivity.
Defined.

(** X12, witness: a request command in one call, its data in the next. *)
Lemma addPDataTF_emits_after_last_witness :
  countLast true ([Samples.pduRQ] ++ [Samples.pduData]) = 1%nat
  /\ (countLast false ([Samples.pduRQ] ++ [Samples.pduData]) <= 1)%nat
  /\ ((exists v, RQ (Some Samples.rqMoveDecoded) = RQ (Some v)) ->
      countLast false ([Samples.pduRQ] ++ [Samples.pduData]) = 1%nat).
Proof.
  apply (addPDataTF_emits_after_last (L := ImplicitLE.codec) unit Samples.contextNames
           [Samples.pduRQ] Samples.pduData tt
           (mkAssembler 1 (Samples.encoded (RQ (Some Samples.rqMoveDecoded)))
              (RQ (Some Samples.rqMoveDecoded)) [] true false)
           emptyAssembler
           (mkAssembled Samples.storageClass (RQ (Some Samples.rqMoveDecoded))
              [x01; x02] None)).
  - vm_compute. reflexivity.
  - vm_compute. reflexivity.
  - reflexivity.
Defined.

(** X13, witness: one more command fragment in the middle of a message. *)
Lemma addPDataTF_keeps_context_witness :
  contextID (mkAssembler 1 [x00; x00; x07] NilMessage [] false false)
  = contextID Samples.midMessage
  /\ Forall (fun item => ContextID item = contextID Samples.midMessage)
       [Samples.commandPDV 1 false [x07]].
Proof.
  apply (addPDataTF_keeps_context (L := ImplicitLE.codec) unit Samples.contextNames
           Samples.midMessage (mkPDataTF [Samples.commandPDV 1 false [x07]]) tt
           (mkAssembler 1 [x00; x00; x07] NilMessage [] false false) (nothing None)).
  - cbn. lia.
  - reflexivity.
  - reflexivity.
Defined.

(** X14, witness: a PDV of context 0, then one of context 3. *)
Lemma addItems_context_zero_merges_witness :
  exists a',
    addItems emptyAssembler
      [Samples.commandPDV 0 false [x01]; Samples.commandPDV 3 false [x02]] = Ret a'
    /\ contextID a' = 3
    /\ commandBytes a' = [] ++ [x01] ++ [x02]
    /\ dataBytes a' = [] ++ [] ++ [].
Proof.
  apply (addItems_context_zero_merges emptyAssembler
           (Samples.commandPDV 0 false [x01]) (Samples.commandPDV 3 false [x02]));
    reflexivity.
Defined.

(** X15, witness: a response on context 5, which the context map does not
    know; the message is handed up with the empty name and no error. *)
Lemma addPDataTF_emission_result_witness :
  @None error = None
  /\ exists a1,
       addItems emptyAssembler
         [Samples.commandPDV 5 true (Samples.encoded (RSP (Some Samples.rsp)))] = Ret a1
       /\ EmptyString = fst (Samples.contextNames tt (contextID a1))
       /\ [] = [] ++ flat_map (fun item => if Command item then [] else Value item)
                       [Samples.commandPDV 5 true (Samples.encoded (RSP (Some Samples.rsp)))].
Proof.
  apply (addPDataTF_emission_result (L := ImplicitLE.codec) unit Samples.contextNames
           emptyAssembler
           (mkPDataTF [Samples.commandPDV 5 true (Samples.encoded (RSP (Some Samples.rsp)))])
           tt emptyAssembler
           (mkAssembled EmptyString (RSP (Some Samples.rspDecoded)) [] None)).
  - vm_compute. reflexivity.
  - reflexivity.
Defined.

(** X16, witness: the data of the message arrives after the failed decode. *)
Lemma addPDataTF_after_nil_pointer_panics_witness :
  exists p,
    addPDataTF (L := ImplicitLE.codec) Samples.contextNames
      Samples.afterFailedDecode Samples.pduData tt = Panic p.
Proof.
  apply (addPDataTF_after_nil_pointer_panics (L := ImplicitLE.codec) unit
           Samples.contextNames Samples.afterFailedDecode Samples.pduData tt).
  - reflexivity.
  - left. reflexivity.
Defined.

(** X17, witness: a response command cut after its first ten bytes. *)
Lemma addPDataTF_split_witness :
  addPDataTF (L := ImplicitLE.codec) Samples.contextNames emptyAssembler
    (mkPDataTF
       ([Samples.commandPDV 1 false (firstn 10 (Samples.encoded (RSP (Some Samples.rsp))))]
          ++ [Samples.commandPDV 1 true
                (skipn 10 (Samples.encoded (RSP (Some Samples.rsp))))])) tt
  = addPDataTF (L := ImplicitLE.codec) Samples.contextNames
      (mkAssembler 1 (firstn 10 (Samples.encoded (RSP (Some Samples.rsp))))
         NilMessage [] false false)
      (mkPDataTF
         [Samples.commandPDV 1 true (skipn 10 (Samples.encoded (RSP (Some Samples.rsp))))])
      tt.
Proof.
  apply (addPDataTF_split (L := ImplicitLE.codec) unit Samples.contextNames
           emptyAssembler
           [Samples.commandPDV 1 false (firstn 10 (Samples.encoded (RSP (Some Samples.rsp))))]
           [Samples.commandPDV 1 true (skipn 10 (Samples.encoded (RSP (Some Samples.rsp))))]
           tt
           (mkAssembler 1 (firstn 10 (Samples.encoded (RSP (Some Samples.rsp))))
              NilMessage [] false false)
           (nothing None)).
  - vm_compute. reflexivity.
  - reflexivity.
  - reflexivity.
Defined.

(** X18, witness: the call whose decode fails on the missing
    AffectedSOPClassUID. *)
Lemma addPDataTF_error_from_decoder_witness :
  nothing (Some (ElementNotFound TagAffectedSOPClassUID))
  = nothing (Some (ElementNotFound TagAffectedSOPClassUID))
  /\ command emptyAssembler = NilMessage
  /\ readAllCommand Samples.afterFailedDecode = true
  /\ commandBytes Samples.afterFailedDecode
     = commandBytes emptyAssembler
       ++ flat_map (fun item => if Command item then Value item else [])
            (Items Samples.pduCommandFieldOnly)
  /\ dataBytes Samples.afterFailedDecode
     = dataBytes emptyAssembler
       ++ flat_map (fun item => if Command item then [] else Value item)
            (Items Samples.pduCommandFieldOnly)
  /\ DecodeDIMSEMessage (L := ImplicitLE.codec) (commandBytes Samples.afterFailedDecode)
       (Z.of_nat (List.length (commandBytes Samples.afterFailedDecode)))
     = Ret (command Samples.afterFailedDecode,
            Some (ElementNotFound TagAffectedSOPClassUID)).
Proof.
  apply (addPDataTF_error_from_decoder (L := ImplicitLE.codec) unit Samples.contextNames
           emptyAssembler Samples.pduCommandFieldOnly tt Samples.afterFailedDecode
           (nothing (Some (ElementNotFound TagAffectedSOPClassUID)))).
  - vm_compute. reflexivity.
  - reflexivity.
Defined.

(** X19, witness: the store of three files and the filter on the patient
    name. *)
Lemma findMatchingFiles_matches_shape_witness :
  (List.length Samples.storeMatches <= List.length (SampleServer.datasets Samples.store))%nat
  /\ Forall (fun m => List.length (SampleServer.elems m) = List.length [Samples.patientName]
                      /\ SampleServer.elems m <> []
                      /\ In (SampleServer.path m)
                           (map fst (SampleServer.datasets Samples.store)))
       Samples.storeMatches.
Proof.
  apply (findMatchingFiles_matches_shape Tag (list Tag) (fun t : Tag => t) Samples.query
           Samples.newElement Samples.store [Samples.patientName] Samples.storeMatches None).
  vm_compute. reflexivity.
Defined.

(** X20, witness: the store of three files and no filter. *)
Lemma findMatchingFiles_no_filters_panics_witness :
  SampleServer.findMatchingFiles (fun t : Tag => t) Samples.query Samples.newElement
    Samples.store [] = Panic (PanicValue "a.dcm").
Proof.
  apply (findMatchingFiles_no_filters_panics Tag (list Tag) (fun t : Tag => t) Samples.query
           Samples.newElement Samples.store "a.dcm" [Samples.patientName]
           [("b.dcm"%string, []); ("c.dcm"%string, [Samples.patientName])]).
  reflexivity.
Defined.

(** X21, witness: the filter on the patient name selects the first and the
    third file of the store. *)
Lemma findMatchingFiles_selects_witness :
  exists matches,
    SampleServer.findMatchingFiles (fun t : Tag => t) Samples.query Samples.newElement
      Samples.store [Samples.patientName] = Ret (matches, None)
    /\ map SampleServer.path matches
       = map fst
           (filter (fun entry =>
                      forallb (fun f => fst (fst (Samples.query (snd entry) f)))
                        [Samples.patientName])
              (SampleServer.datasets Samples.store)).
Proof.
  apply (findMatchingFiles_selects Tag (list Tag) (fun t : Tag => t) Samples.query
           Samples.newElement Samples.store [Samples.patientName]).
  - discriminate.
  - reflexivity.
  - intros t. exists t. reflexivity.
Defined.

(** X22, witness: a C-MOVE on the store. *)
Lemma onCMoveOrCGet_responses_witness :
  exists results,
    SampleServer.onCMoveOrCGet (fun t : Tag => t) Samples.query Samples.newElement
      Samples.readFile Samples.store "1.2.840.10008.1.2"
      "1.2.840.10008.5.1.4.1.2.1.2" [Samples.patientName] = Ret results
    /\ map SampleServer.Path results = map SampleServer.path Samples.storeMatches
    /\ Forall (fun r =>
                 SampleServer.Err r = snd (Samples.readFile (SampleServer.Path r))
                 /\ SampleServer.ResultDataSet r
                    = match snd (Samples.readFile (SampleServer.Path r)) with
                      | Some _ => None
                      | None => fst (Samples.readFile (SampleServer.Path r))
                      end) results.
Proof.
  apply (onCMoveOrCGet_responses Tag (list Tag) (fun t : Tag => t) Samples.query
           Samples.newElement Samples.readFile Samples.store).
  vm_compute. reflexivity.
Defined.

(** X26, witness: the default of the flag, and one more entry. *)
Lemma parseRemoteAEFlag_append_witness :
  exists m',
    SampleServer.parseRemoteAEFlag
      ("GBMAC0261:localhost:11112"
         ++ String SampleServer.comma
              ("testae" ++ String SampleServer.colon "foo.example.com:12345"))%string
    = (m', None)
    /\ m' "testae"%string = Some "foo.example.com:12345"%string
    /\ forall title, title <> "testae"%string ->
                     m' title
                     = fst (SampleServer.parseRemoteAEFlag "GBMAC0261:localhost:11112") title.
Proof.
  apply (parseRemoteAEFlag_append "GBMAC0261:localhost:11112"
           (fst (SampleServer.parseRemoteAEFlag "GBMAC0261:localhost:11112"))
           "testae" "foo.example.com:12345").
  - reflexivity.
  - discriminate.
  - reflexivity.
  - reflexivity.
  - discriminate.
  - reflexivity.
  - reflexivity.
Defined.

(** X27, witness: a piece without a colon between two entries. *)
Lemma parseRemoteAEFlag_stops_at_bad_piece_witness :
  SampleServer.parseRemoteAEFlag
    ("testae:foo.example.com:12345"
       ++ String SampleServer.comma
            ("testae2" ++ String SampleServer.comma "testae3:bar.example.com:23456"))%string
  = (fst (SampleServer.parseRemoteAEFlag "testae:foo.example.com:12345"),
     Some (SampleServer.FailedToParseAESpec "testae2")).
Proof.
  apply (parseRemoteAEFlag_stops_at_bad_piece "testae:foo.example.com:12345"
           (fst (SampleServer.parseRemoteAEFlag "testae:foo.example.com:12345"))
           "testae2" "testae3:bar.example.com:23456").
  - reflexivity.
  - discriminate.
  - reflexivity.
  - reflexivity.
Defined.

(** X28, witness: the command of [Samples.rqMoveDecoded] as
    [encodeDIMSEMessage] writes it, with and without its CommandGroupLength
    and CommandField. *)
Lemma decodeC_STORE_RQ_ignores_other_elements_witness :
  decodeC_STORE_RQ (L := ImplicitLE.codec)
    (filter (fun e => negb (Tag_eqb (ElementTag e) TagCommandGroupLength
                            || Tag_eqb (ElementTag e) TagCommandField))
       (snd (readAllElements
               (NewDecoder (Samples.encoded (RQ (Some Samples.rqMoveDecoded)))
                  (Samples.size (Samples.encoded (RQ (Some Samples.rqMoveDecoded))))))))
  = decodeC_STORE_RQ (L := ImplicitLE.codec)
      (snd (readAllElements
              (NewDecoder (Samples.encoded (RQ (Some Samples.rqMoveDecoded)))
                 (Samples.size (Samples.encoded (RQ (Some Samples.rqMoveDecoded))))))).
Proof.
  apply (decodeC_STORE_RQ_ignores_other_elements (L := ImplicitLE.codec)
           (fun t => Tag_eqb t TagCommandGroupLength || Tag_eqb t TagCommandField)).
  intros t Ht. cbn in Ht.
  destruct Ht as [<-|[<-|[<-|[<-|[<-|[<-|[<-|[]]]]]]]]; reflexivity.
Defined.
